(** * Invoice extractor: validation, boundary extraction and batch loop

    A shallow embedding of [app.py]: the helper functions
    [read_pdf], [extract_invoice_data], [validate_invoice_data] and
    [process_invoices], with the Python values they handle.

    JSON documents decode to Python values ([pyval]); a record is a Python
    [dict] with string keys, modelled as a [gmap string pyval].  Python's
    [float] is IEEE 754 binary64, modelled by the Standard Library's
    [spec_float] at precision 53 and maximal exponent 1024.  Exceptions are
    an explicit result type; in-place updates of the dictionary are threaded
    through a small state-and-exception monad, so that what was written
    before an exception stays written. *)

From Stdlib Require Import ZArith String Ascii List Lia.
From Stdlib Require Import Floats.SpecFloat.
From stdpp Require Import gmap strings list fin_maps.

Set Warnings "-register-all".
Local Open Scope Z_scope.

(** ** Python values *)

Module Py.

(** The values [json.loads] produces, plus what [float()] returns. *)
Inductive pyval :=
| PNone
| PBool (b : bool)
| PInt (z : Z)
| PFloat (f : spec_float)
| PStr (s : string)
| PList (l : list pyval)
| PDict (d : gmap string pyval).

(** The exception classes that the modelled code can raise. *)
Inductive exn :=
| ValueError
| TypeError
| OverflowError
| KeyError
| AttributeError.

Inductive result (A : Type) :=
| Ok (a : A)
| Raise (e : exn).
Arguments Ok {A} a.
Arguments Raise {A} e.

(** *** Numbers and their exact comparison

    Python compares [int], [bool] and [float] operands by their exact
    mathematical value; a NaN is unordered and unequal to everything.  A
    finite number is kept as [m * 2^e]. *)
Inductive xnum :=
| XNan
| XInf (neg : bool)
| XFin (m e : Z).

Definition xnum_of_float (f : spec_float) : xnum :=
  match f with
  | S754_zero _ => XFin 0 0
  | S754_infinity s => XInf s
  | S754_nan => XNan
  | S754_finite s m e => XFin (cond_Zopp s (Zpos m)) e
  end.

Definition num_of (v : pyval) : option xnum :=
  match v with
  | PBool b => Some (XFin (Z.b2z b) 0)
  | PInt z => Some (XFin z 0)
  | PFloat f => Some (xnum_of_float f)
  | _ => None
  end.

Definition xcompare (a b : xnum) : option comparison :=
  match a, b with
  | XNan, _ | _, XNan => None
  | XInf s1, XInf s2 =>
      Some (match s1, s2 with
            | true, false => Lt
            | false, true => Gt
            | _, _ => Eq
            end)
  | XInf s, XFin _ _ => Some (if s then Lt else Gt)
  | XFin _ _, XInf s => Some (if s then Gt else Lt)
  | XFin m1 e1, XFin m2 e2 =>
      let e := Z.min e1 e2 in
      Some (Z.compare (m1 * 2 ^ (e1 - e)) (m2 * 2 ^ (e2 - e)))
  end.

Definition xeqb (a b : xnum) : bool :=
  match xcompare a b with Some Eq => true | _ => false end.

Definition xltb (a b : xnum) : bool :=
  match xcompare a b with Some Lt => true | _ => false end.

(** [bool(v)]: what [if v:] and [v or w] test. *)
Definition truthy (v : pyval) : bool :=
  match v with
  | PNone => false
  | PBool b => b
  | PInt z => negb (z =? 0)
  | PFloat f => negb (xeqb (xnum_of_float f) (XFin 0 0))
  | PStr s => negb (String.eqb s EmptyString)
  | PList l => negb (bool_decide (l = []))
  | PDict d => negb (bool_decide (d = ∅))
  end.

(** [a or b] evaluates to [a] when [a] is truthy, to [b] otherwise. *)
Definition py_or (a b : pyval) : pyval := if truthy a then a else b.

(** [v == 0] for the integer literal [0]: numbers compare by value, every
    other value is unequal to it. *)
Definition py_eq_zero (v : pyval) : bool :=
  match num_of v with
  | Some x => xeqb x (XFin 0 0)
  | None => false
  end.

(** [a < b].  Numbers compare by value.  The orderings of two strings or of
    two lists are not modelled: the operands that reach the comparison in
    [validate_invoice_data] are floats or the integer 0
    (see [validated_operands_numeric]); any other pair raises [TypeError]
    here. *)
Definition py_lt (a b : pyval) : result bool :=
  match num_of a, num_of b with
  | Some x, Some y => Ok (xltb x y)
  | _, _ => Raise TypeError
  end.

(** [d.get(k)]: [None] for a missing key. *)
Definition dict_get (d : gmap string pyval) (k : string) : pyval :=
  default PNone (d !! k).

End Py.
Export Py.

(** ** The builtin [float()] *)

Module PyFloat.

Definition prec : Z := 53.
Definition emax : Z := 1024.

(** The binary64 nearest to [n / d], ties to even: the quotient is taken
    with at least [prec + 3] bits, the remainder decides the position of the
    exact value between two candidates, and [binary_round_aux] rounds; it
    yields an infinity on overflow and a zero or a subnormal on underflow. *)
Definition float_of_ratio (neg : bool) (n d : positive) : spec_float :=
  let s := Z.max 0 (Z.log2 (Zpos d) + prec + 4 - Z.log2 (Zpos n)) in
  let num := Zpos n * 2 ^ s in
  let q := num / Zpos d in
  let r := num mod Zpos d in
  let loc := if r =? 0 then loc_Exact
             else loc_Inexact (Z.compare (2 * r) (Zpos d)) in
  binary_round_aux prec emax neg q (- s) loc.

(** [float(z)] for an [int]: the nearest binary64, [OverflowError] when
    that is out of range. *)
Definition float_of_Z (z : Z) : result spec_float :=
  match z with
  | Z0 => Ok (S754_zero false)
  | Zpos p =>
      match float_of_ratio false p 1 with
      | S754_infinity _ => Raise OverflowError
      | f => Ok f
      end
  | Zneg p =>
      match float_of_ratio true p 1 with
      | S754_infinity _ => Raise OverflowError
      | f => Ok f
      end
  end.

(** *** [float(s)] for a [str]

    A [str] is kept as the bytes of its UTF-8 encoding.  [float()] first
    brings the text to ASCII: a string of ASCII characters is taken as it
    is; in any other string every white-space character beyond ASCII becomes
    a space and every decimal digit beyond ASCII becomes its ASCII digit,
    and the text is cut after the first character that is neither.  The white
    space and the decimal digits are those of Unicode 14.0, the database of
    CPython 3.11.  Then the ASCII white space on both sides is dropped and the
    rest is read by the grammar of the language reference:
    [[sign] (floatnumber | "inf" | "infinity" | "nan")], where
    [floatnumber ::= ([digitpart] "." digitpart | digitpart ["."]) [exponent]],
    [digitpart ::= digit (["_"] digit)*] and
    [exponent ::= ("e" | "E") [sign] digitpart].  The value is the binary64
    nearest to the decimal; CPython rejects a number of more than [10^9]
    digits. *)

Definition byte (c : ascii) : Z := Z.of_nat (nat_of_ascii c).

(** The six payload bits of a continuation byte at position [i]. *)
Definition payload (rest : list ascii) (i : nat) : option Z :=
  match nth_error rest i with
  | Some b =>
      if (128 <=? byte b) && (byte b <? 192) then Some (byte b - 128)
      else None
  | None => None
  end.

(** The code point that starts at the byte [b0], and the number of
    continuation bytes it takes from [rest].  A byte that starts no
    well-formed sequence stands for the lone surrogate [U+DC00 + b0], which
    is how Python keeps an undecodable byte in a [str]. *)
Definition decode1 (b0 : ascii) (rest : list ascii) : Z * nat :=
  let x := byte b0 in
  let invalid := (56320 + x, 0%nat) in
  if x <? 128 then (x, 0%nat)
  else if (194 <=? x) && (x <? 224) then
    match payload rest 0 with
    | Some p1 => ((x - 192) * 64 + p1, 1%nat)
    | None => invalid
    end
  else if (224 <=? x) && (x <? 240) then
    match payload rest 0, payload rest 1 with
    | Some p1, Some p2 =>
        let cp := (x - 224) * 4096 + p1 * 64 + p2 in
        if 2048 <=? cp then (cp, 2%nat) else invalid
    | _, _ => invalid
    end
  else if (240 <=? x) && (x <? 245) then
    match payload rest 0, payload rest 1, payload rest 2 with
    | Some p1, Some p2, Some p3 =>
        let cp := (x - 240) * 262144 + p1 * 4096 + p2 * 64 + p3 in
        if (65536 <=? cp) && (cp <=? 1114111) then (cp, 3%nat) else invalid
    | _, _, _ => invalid
    end
  else invalid.

(** The code points of a UTF-8 text; [skip] counts the continuation bytes
    that belong to the code point just read. *)
Fixpoint code_points_from (skip : nat) (s : list ascii) : list Z :=
  match s with
  | [] => []
  | b :: s' =>
      match skip with
      | S n => code_points_from n s'
      | O => let '(cp, n) := decode1 b s' in cp :: code_points_from n s'
      end
  end.

Definition code_points (s : list ascii) : list Z := code_points_from 0 s.

(** The white-space characters from U+007F on. *)
Definition unicode_spaces : list Z :=
  [133; 160; 5760; 8192; 8193; 8194; 8195; 8196; 8197; 8198; 8199;
   8200; 8201; 8202; 8232; 8233; 8239; 8287; 12288].

Definition unicode_space (cp : Z) : bool := existsb (Z.eqb cp) unicode_spaces.

(** The decimal digits from U+007F on come in runs of ten, zero to nine;
    these are the zeros. *)
Definition decimal_zeros : list Z :=
  [1632; 1776; 1984; 2406; 2534; 2662; 2790; 2918; 3046; 3174; 3302;
   3430; 3558; 3664; 3792; 3872; 4160; 4240; 6112; 6160; 6470; 6608;
   6784; 6800; 6992; 7088; 7232; 7248; 42528; 43216; 43264; 43472;
   43504; 43600; 44016; 65296; 66720; 68912; 69734; 69872; 69942;
   70096; 70384; 70736; 70864; 71248; 71360; 71472; 71904; 72016;
   72784; 73040; 73120; 92768; 92864; 93008; 120782; 120792; 120802;
   120812; 120822; 123200; 123632; 125264; 130032].

Definition unicode_decimal (cp : Z) : option Z :=
  match List.find (fun z => (z <=? cp) && (cp <? z + 10)) decimal_zeros with
  | Some z => Some (cp - z)
  | None => None
  end.

Definition ascii_of_Z (z : Z) : ascii := ascii_of_nat (Z.to_nat z).

(** The ASCII text that stands for a string with characters beyond ASCII. *)
Fixpoint decimal_and_space_to_ascii (cps : list Z) : list ascii :=
  match cps with
  | [] => []
  | ch :: rest =>
      if ch <? 127 then ascii_of_Z ch :: decimal_and_space_to_ascii rest
      else if unicode_space ch then
        " "%char :: decimal_and_space_to_ascii rest
      else
        match unicode_decimal ch with
        | Some k => ascii_of_Z (48 + k) :: decimal_and_space_to_ascii rest
        | None => ["?"%char]
        end
  end.

Definition ascii_form (s : list ascii) : list ascii :=
  if forallb (fun c => byte c <? 128) s then s
  else decimal_and_space_to_ascii (code_points s).

(** The white space that is dropped on both sides: tab, line feed, vertical
    tab, form feed, carriage return and space. *)
Definition is_space (c : ascii) : bool :=
  let n := nat_of_ascii c in
  ((9 <=? n)%nat && (n <=? 13)%nat) || (n =? 32)%nat.

Definition digit_of (c : ascii) : option Z :=
  let n := Z.of_nat (nat_of_ascii c) in
  if (48 <=? n) && (n <=? 57) then Some (n - 48) else None.

Definition lower (c : ascii) : ascii :=
  let n := nat_of_ascii c in
  if ((65 <=? n)%nat && (n <=? 90)%nat) then ascii_of_nat (n + 32) else c.

Fixpoint drop_spaces (s : list ascii) : list ascii :=
  match s with
  | c :: s' => if is_space c then drop_spaces s' else s
  | [] => []
  end.

Definition strip (s : list ascii) : list ascii :=
  rev (drop_spaces (rev (drop_spaces s))).

(** After a first digit: more digits, each optionally preceded by one
    underscore.  Returns the digits read (most significant first, after
    [acc] reversed) and the rest of the input. *)
Fixpoint more_digits (s : list ascii) (acc : list Z) : list Z * list ascii :=
  match s with
  | c :: s' =>
      match digit_of c with
      | Some k => more_digits s' (k :: acc)
      | None =>
          if Ascii.eqb c "_"%char then
            match s' with
            | c2 :: s'' =>
                match digit_of c2 with
                | Some k2 => more_digits s'' (k2 :: acc)
                | None => (rev acc, s)
                end
            | [] => (rev acc, s)
            end
          else (rev acc, s)
      end
  | [] => (rev acc, [])
  end.

Definition digitpart (s : list ascii) : option (list Z * list ascii) :=
  match s with
  | c :: s' =>
      match digit_of c with
      | Some k => Some (more_digits s' [k])
      | None => None
      end
  | [] => None
  end.

Definition opt_sign (s : list ascii) : bool * list ascii :=
  match s with
  | c :: s' =>
      if Ascii.eqb c "-"%char then (true, s')
      else if Ascii.eqb c "+"%char then (false, s')
      else (false, s)
  | [] => (false, [])
  end.

Definition Z_of_digits (ds : list Z) : Z :=
  fold_left (fun acc k => 10 * acc + k) ds 0.

(** [number]: the integer and fraction digits, and the rest. *)
Definition number (s : list ascii) : option (list Z * list Z * list ascii) :=
  match digitpart s with
  | Some (ip, r) =>
      match r with
      | c :: r' =>
          if Ascii.eqb c "."%char then
            match digitpart r' with
            | Some (fp, r'') => Some (ip, fp, r'')
            | None => Some (ip, [], r')
            end
          else Some (ip, [], r)
      | [] => Some (ip, [], [])
      end
  | None =>
      match s with
      | c :: r' =>
          if Ascii.eqb c "."%char then
            match digitpart r' with
            | Some (fp, r'') => Some ([], fp, r'')
            | None => None
            end
          else None
      | [] => None
      end
  end.

(** [exponent], when present; [None] is a syntax error. *)
Definition exponent (s : list ascii) : option (Z * list ascii) :=
  match s with
  | [] => Some (0, [])
  | c :: s' =>
      if Ascii.eqb (lower c) "e"%char then
        let '(neg, r) := opt_sign s' in
        match digitpart r with
        | Some (ds, r') =>
            Some (if neg then - Z_of_digits ds else Z_of_digits ds, r')
        | None => None
        end
      else Some (0, s)
  end.

Definition float_of_decimal (neg : bool) (m : Z) (k : Z) : spec_float :=
  match m with
  | Zpos p =>
      if 0 <=? k then float_of_ratio neg (p * Z.to_pos (10 ^ k)) 1
      else float_of_ratio neg p (Z.to_pos (10 ^ (- k)))
  | _ => S754_zero neg
  end.

Definition max_digits : Z := 1000000000.

Fixpoint drop_zeros (ds : list Z) : list Z :=
  match ds with
  | k :: ds' => if k =? 0 then drop_zeros ds' else ds
  | [] => []
  end.

(** The digits counted against [max_digits]: those of the number without
    its leading zeros, and those of the fraction. *)
Definition too_long (ip fp : list Z) : bool :=
  let nd := match drop_zeros ip with
            | [] => length (drop_zeros fp)
            | ip' => (length ip' + length fp)%nat
            end in
  (max_digits <? Z.of_nat nd) || (max_digits <? Z.of_nat (length fp)).

Definition float_of_str (s : string) : result spec_float :=
  let text := strip (ascii_form (list_ascii_of_string s)) in
  let '(neg, body) := opt_sign text in
  let word := string_of_list_ascii (map lower body) in
  if String.eqb word "inf" || String.eqb word "infinity" then
    Ok (S754_infinity neg)
  else if String.eqb word "nan" then Ok S754_nan
  else
    match number body with
    | Some (ip, fp, r) =>
        match exponent r with
        | Some (e, []) =>
            if too_long ip fp then Raise ValueError
            else Ok (float_of_decimal neg (Z_of_digits (ip ++ fp))
                       (e - Z.of_nat (length fp)))
        | _ => Raise ValueError
        end
    | None => Raise ValueError
    end.

(** [float(v)]: a [bool] is an [int]; a [float] is returned as it is; any
    other type is a [TypeError]. *)
Definition py_float (v : pyval) : result spec_float :=
  match v with
  | PBool b => float_of_Z (Z.b2z b)
  | PInt z => float_of_Z z
  | PFloat f => Ok f
  | PStr s => float_of_str s
  | PNone | PList _ | PDict _ => Raise TypeError
  end.

End PyFloat.
Export PyFloat.

(** ** Statements over a dictionary that is updated in place

    A computation reads and writes the one dictionary it was given and
    either returns or raises; the dictionary as written so far is kept in
    both cases. *)

Module Stmt.

Definition M (A : Type) : Type :=
  gmap string pyval -> result A * gmap string pyval.

#[global] Instance M_ret : MRet M := fun A a d => (Ok a, d).

#[global] Instance M_bind : MBind M := fun A B f m d =>
  match m d with
  | (Ok a, d') => f a d'
  | (Raise e, d') => (Raise e, d')
  end.

(** An expression that may raise, evaluated for its value. *)
Definition lift {A} (r : result A) : M A := fun d => (r, d).

(** [data_dict.get(k)] *)
Definition get (k : string) : M pyval := fun d => (Ok (dict_get d k), d).

(** [data_dict[k]] *)
Definition getitem (k : string) : M pyval := fun d =>
  match d !! k with
  | Some v => (Ok v, d)
  | None => (Raise KeyError, d)
  end.

(** [data_dict[k] = v] *)
Definition setitem (k : string) (v : pyval) : M unit := fun d =>
  (Ok tt, <[k:=v]> d).

(** [for x in xs: body x] *)
Fixpoint for_each {A} (xs : list A) (body : A -> M unit) : M unit :=
  match xs with
  | [] => mret tt
  | x :: xs' => body x ;; for_each xs' body
  end.

End Stmt.
Export Stmt.

(** ** [validate_invoice_data] *)

Definition amounts : list string :=
  ["subtotal_amount"; "tax_amount"; "discount_amount"; "total_amount";
   "amount_due"]%string.

(** One iteration of the loop over [amounts]:
    [if data_dict.get(key): data_dict[key] = float(data_dict[key])]. *)
Definition coerce_amount (key : string) : M unit :=
  v ← get key;
  if truthy v then
    raw ← getitem key;
    f ← lift (py_float raw);
    setitem key (PFloat f)
  else mret tt.

(** The [if]/[elif]/[else] chain that sets the status from the locals
    [due] and [total]. *)
Definition set_payment_status (due total : pyval) : M unit :=
  if py_eq_zero due then setitem "payment_status" (PStr "paid")
  else
    lt ← lift (py_lt due total);
    if (lt : bool) then setitem "payment_status" (PStr "partial")
    else setitem "payment_status" (PStr "unpaid").

(** The body of the [try] block. *)
Definition validate_body : M unit :=
  for_each amounts coerce_amount;;
  subtotal ← (v ← get "subtotal_amount"; mret (py_or v (PInt 0)));
  tax ← (v ← get "tax_amount"; mret (py_or v (PInt 0)));
  discount ← (v ← get "discount_amount"; mret (py_or v (PInt 0)));
  total ← (v ← get "total_amount"; mret (py_or v (PInt 0)));
  due ← (v ← get "amount_due"; mret (py_or v total));
  set_payment_status due total.

(** What the logger receives: [logger.warning] of a validation note with
    the exception caught. *)
Inductive log_entry :=
| LogWarning (e : exn).

(** [validate_invoice_data(data_dict)]: runs the body; an exception is
    caught and logged; the dictionary, as updated in place up to that
    point, is returned. *)
Definition validate_invoice_data (data_dict : gmap string pyval)
  : gmap string pyval * list log_entry :=
  match validate_body data_dict with
  | (Ok _, d) => (d, [])
  | (Raise e, d) => (d, [LogWarning e])
  end.

(** ** String search and slicing

    [str.find], [str.rfind] and [s[start:stop]].  A [str] is kept as its
    UTF-8 bytes; the characters searched for are ASCII, so a slice at the
    positions found cuts the same text as it does on code points. *)

Module PyStr.

Fixpoint find_from (c : ascii) (s : string) (i : Z) : Z :=
  match s with
  | EmptyString => -1
  | String a s' => if Ascii.eqb a c then i else find_from c s' (i + 1)
  end.

(** [s.find(c)]: the lowest index of [c], or [-1]. *)
Definition find (c : ascii) (s : string) : Z := find_from c s 0.

Fixpoint rfind_from (c : ascii) (s : string) (i last : Z) : Z :=
  match s with
  | EmptyString => last
  | String a s' =>
      rfind_from c s' (i + 1) (if Ascii.eqb a c then i else last)
  end.

(** [s.rfind(c)]: the highest index of [c], or [-1]. *)
Definition rfind (c : ascii) (s : string) : Z := rfind_from c s 0 (-1).

(** A slice bound: a negative index counts from the end, and every index is
    clamped to the string. *)
Definition clamp_index (len i : Z) : Z :=
  if i <? 0 then Z.max 0 (i + len) else Z.min i len.

(** [s[start:stop]] *)
Definition slice (s : string) (start stop : Z) : string :=
  let len := Z.of_nat (String.length s) in
  let a := clamp_index len start in
  let b := clamp_index len stop in
  substring (Z.to_nat a) (Z.to_nat (b - a)) s.

End PyStr.
Export PyStr.

(** The "Extract JSON safely" lines of [extract_invoice_data]. *)
Definition json_boundary (full_response : string) : string :=
  let start_index := find "{"%char full_response in
  let end_index := rfind "}"%char full_response + 1 in
  if negb (start_index =? -1) then slice full_response start_index end_index
  else full_response.

(** ** External collaborators

    The PDF reader, the chat-completion client and the [json] module are
    not part of the program: the functions below take them as an
    interface. *)

(** A call into a library: it returns, or it raises an exception whose
    [str()] is [msg]. *)
Inductive ext (A : Type) :=
| Returned (a : A)
| Failed (msg : string).
Arguments Returned {A} a.
Arguments Failed {A} msg.

Record uploaded_file := { name : string; content : string }.

Class Services := {
  (** [PdfReader(file).pages], each page with what [extract_text()] does *)
  PdfReader : uploaded_file -> ext (list (ext string));
  (** the global [client]: [None] when no API key is configured; otherwise
      the content of the first choice of the completion for a prompt, which
      the library types as an optional string *)
  client : option (string -> ext (option string));
  json_dumps : pyval -> string;
  json_loads : string -> ext pyval
}.

(** Why a file was given up: a library call failed with a message, or the
    loop body itself raised. *)
Inductive failure :=
| ServiceFailure (msg : string)
| Uncaught (e : exn).

(** What the user interface and the logger are told; the texts shown are
    kept as their parts. *)
Inductive event :=
| ConfigError
| RemoteCall (prompt : string)
| Processing (i n : nat) (fname : string)
| ApiError (err : pyval)
| Warned (w : log_entry)
| Processed (fname : string)
| FailedToProcess (fname : string) (why : failure)
| Progress (i n : nat)
| Summary (processed n : nat).

Definition prompt_head : string :=
"
    You are an expert invoice data extraction AI for accounting professionals.
    Extract the following information from the invoice text below:

    REQUIRED FIELDS:
    - vendor_name: The company/person who issued the invoice (required)
    - customer_name: The customer receiving the invoice (required)
    - invoice_date: The invoice date in YYYY-MM-DD format (required)
    - invoice_number: The invoice ID/number (required)
    - subtotal_amount: Subtotal before taxes (if shown)
    - tax_amount: Tax/VAT amount (if shown)
    - discount_amount: Any discount amount (if shown, as positive number)
    - total_amount: The final invoice total (required)
    - amount_due: Amount outstanding (default to total_amount if not specified)
    - currency: ISO currency code (USD, EUR, GBP, etc.) (required)
    - payment_status: One of: ['unpaid', 'paid', 'partial'] (infer from context)
    - due_date: Payment due date if specified (YYYY-MM-DD format)
    - payment_terms: Payment terms description

    BUSINESS LOGIC RULES:
    1. amount_due MUST equal total_amount if no payments are mentioned
    2. Convert all dates to ISO format (YYYY-MM-DD)
    3. For discounts: extract as positive numbers, subtract from subtotal
    4. If tax is not separate, set tax_amount to 0
    5. payment_status: 'unpaid' if amount_due == total_amount, 'paid' if amount_due == 0, 'partial' otherwise

    Return ONLY a valid JSON object with these exact keys.
    Use null for missing optional fields.

    INVOICE TEXT:
    ".

Definition prompt_tail : string :=
"
    ".

Definition error_payload (msg : string) : pyval :=
  PDict {[ "error"%string := PStr msg ]}.

Section Pipeline.
Context {S : Services}.

(** [read_pdf(file)]: the page texts, each followed by a newline. *)
Fixpoint page_texts (pages : list (ext string)) (text : string) : ext string :=
  match pages with
  | [] => Returned text
  | Returned t :: rest => page_texts rest (text +:+ t +:+ String "010"%char "")
  | Failed msg :: _ => Failed msg
  end.

Definition read_pdf (file : uploaded_file) : ext string :=
  match PdfReader file with
  | Returned pages => page_texts pages ""
  | Failed msg => Failed msg
  end.

(** [extract_invoice_data(text)]: the JSON text to decode, and what was
    shown or called on the way.  With no client the call is refused with an
    error payload.  An exception of the completion call, or of [.find] on a
    missing content, is caught and turned into an error payload. *)
Definition extract_invoice_data (text : string) : string * list event :=
  match client with
  | None =>
      (json_dumps (error_payload "API key not configured"), [ConfigError])
  | Some create =>
      let prompt := prompt_head +:+ text +:+ prompt_tail in
      match create prompt with
      | Returned (Some full_response) =>
          (json_boundary full_response, [RemoteCall prompt])
      | Returned None =>
          (json_dumps (error_payload
             ("API call failed: " +:+
              "'NoneType' object has no attribute 'find'")),
           [RemoteCall prompt])
      | Failed msg =>
          (json_dumps (error_payload ("API call failed: " +:+ msg)),
           [RemoteCall prompt])
      end
  end.

(** The loop state of [process_invoices]. *)
Record batch := {
  data : list (gmap string pyval);
  processed_files : nat;
  trace : list event
}.

Definition tell (evs : list event) (st : batch) : batch :=
  {| data := data st; processed_files := processed_files st;
     trace := trace st ++ evs |}.

(** The [except Exception] handler of the loop body, followed by the
    progress update after it. *)
Definition handler (i n : nat) (file : uploaded_file) (why : failure)
    (st : batch) : batch :=
  tell [FailedToProcess (name file) why; Progress (i + 1) n] st.

(** ["error" in obj]: a key of a [dict], an element of a [list], a
    substring of a [str]; any other decoded value is not iterable. *)
Definition contains_error (obj : pyval) : result bool :=
  match obj with
  | PDict d => Ok (bool_decide (is_Some (d !! "error"%string)))
  | PList l =>
      Ok (existsb (fun v => match v with
                            | PStr s => String.eqb s "error"
                            | _ => false
                            end) l)
  | PStr s =>
      Ok (match index 0 "error" s with Some _ => true | None => false end)
  | PNone | PBool _ | PInt _ | PFloat _ => Raise TypeError
  end.

(** [validate_invoice_data] applied to whatever was decoded: on anything
    but a [dict] the first [.get] raises [AttributeError] inside the [try],
    which is logged, and the object is returned as it is. *)
Definition validate_object (obj : pyval) : pyval * list log_entry :=
  match obj with
  | PDict d => let '(d', w) := validate_invoice_data d in (PDict d', w)
  | _ => (obj, [LogWarning AttributeError])
  end.

(** One iteration of the loop over [enumerate(uploaded_files)]. *)
Definition process_file (n : nat) (st : batch) (i : nat)
    (file : uploaded_file) : batch :=
  let st := tell [Processing (i + 1) n (name file)] st in
  match read_pdf file with
  | Failed msg => handler i n file (ServiceFailure msg) st
  | Returned pdf_text =>
      let '(extracted_json, evs) := extract_invoice_data pdf_text in
      let st := tell evs st in
      match json_loads extracted_json with
      | Failed msg => handler i n file (ServiceFailure msg) st
      | Returned data_dict =>
          match contains_error data_dict with
          | Raise e => handler i n file (Uncaught e) st
          | Ok true =>
              (* st.error(f"API Error: {data_dict['error']}"); continue *)
              match data_dict with
              | PDict d => tell [ApiError (dict_get d "error")] st
              | _ => handler i n file (Uncaught TypeError) st
              end
          | Ok false =>
              let '(data_dict, warnings) := validate_object data_dict in
              let st := tell (map Warned warnings) st in
              (* data_dict['source_file'] = file.name *)
              match data_dict with
              | PDict d =>
                  let d := <["source_file"%string := PStr (name file)]> d in
                  {| data := data st ++ [d];
                     processed_files := processed_files st + 1;
                     trace := trace st ++
                              [Processed (name file); Progress (i + 1) n] |}
              | _ => handler i n file (Uncaught TypeError) st
              end
          end
      end
  end.

Fixpoint process_from (n : nat) (st : batch) (i : nat)
    (files : list uploaded_file) : batch :=
  match files with
  | [] => st
  | file :: rest => process_from n (process_file n st i file) (i + 1) rest
  end.

(** [process_invoices(uploaded_files)]: the rows of the data frame that is
    returned, with the counter and the trace. *)
Definition process_invoices (uploaded_files : list uploaded_file) : batch :=
  let n := length uploaded_files in
  let st := process_from n {| data := []; processed_files := 0; trace := [] |}
              0 uploaded_files in
  tell [Summary (processed_files st) n] st.

End Pipeline.

(** ** A concrete environment for running the pipeline

    A decoder and an encoder for the JSON documents used below (objects,
    arrays, strings with the one-letter escapes, numbers, [true], [false],
    [null]), a PDF reader that yields the file content as one page, and a
    client that answers with the invoice text it was sent, or fails when
    that text starts with an exclamation mark. *)

Module JsonLite.

Definition dq : ascii := "034"%char.

Definition is_ws (c : ascii) : bool :=
  let n := nat_of_ascii c in
  (n =? 32)%nat || (n =? 9)%nat || (n =? 10)%nat || (n =? 13)%nat.

Fixpoint skip_ws (s : list ascii) : list ascii :=
  match s with
  | c :: r => if is_ws c then skip_ws r else s
  | [] => []
  end.

Definition unescape (c : ascii) : option ascii :=
  if Ascii.eqb c dq then Some dq
  else if Ascii.eqb c "\"%char then Some "\"%char
  else if Ascii.eqb c "/"%char then Some "/"%char
  else if Ascii.eqb c "n"%char then Some "010"%char
  else if Ascii.eqb c "t"%char then Some "009"%char
  else if Ascii.eqb c "r"%char then Some "013"%char
  else if Ascii.eqb c "b"%char then Some "008"%char
  else if Ascii.eqb c "f"%char then Some "012"%char
  else None.

(** The characters of a string literal after its opening quote. *)
Fixpoint str_body (s acc : list ascii) : option (string * list ascii) :=
  match s with
  | [] => None
  | c :: r =>
      if Ascii.eqb c dq then Some (string_of_list_ascii (rev acc), r)
      else if Ascii.eqb c "\"%char then
        match r with
        | e :: r' =>
            match unescape e with
            | Some x => str_body r' (x :: acc)
            | None => None
            end
        | [] => None
        end
      else str_body r (c :: acc)
  end.

Definition is_number_char (c : ascii) : bool :=
  match digit_of c with
  | Some _ => true
  | None =>
      Ascii.eqb c "-"%char || Ascii.eqb c "+"%char || Ascii.eqb c "."%char
      || Ascii.eqb c "e"%char || Ascii.eqb c "E"%char
  end.

Fixpoint span (p : ascii -> bool) (s : list ascii) : list ascii * list ascii :=
  match s with
  | c :: r => if p c then let '(a, b) := span p r in (c :: a, b) else ([], s)
  | [] => ([], [])
  end.

(** An integer literal decodes to an [int], any other number to a
    [float]. *)
Definition number_value (tok : list ascii) : option pyval :=
  let '(neg, ds) := match tok with
                    | c :: r => if Ascii.eqb c "-"%char then (true, r)
                                else (false, tok)
                    | [] => (false, [])
                    end in
  match ds with
  | [] => None
  | _ :: _ =>
      if forallb (fun c => bool_decide (is_Some (digit_of c))) ds then
        let z := Z_of_digits (omap digit_of ds) in
        Some (PInt (if neg then - z else z))
      else
        match float_of_str (string_of_list_ascii tok) with
        | Ok f => Some (PFloat f)
        | Raise _ => None
        end
  end.

Fixpoint strip_prefix (p s : list ascii) : option (list ascii) :=
  match p, s with
  | [], _ => Some s
  | a :: p', b :: s' => if Ascii.eqb a b then strip_prefix p' s' else None
  | _ :: _, [] => None
  end.

Definition literal (s : list ascii) : option (pyval * list ascii) :=
  match strip_prefix (list_ascii_of_string "true") s with
  | Some r => Some (PBool true, r)
  | None =>
      match strip_prefix (list_ascii_of_string "false") s with
      | Some r => Some (PBool false, r)
      | None =>
          match strip_prefix (list_ascii_of_string "null") s with
          | Some r => Some (PNone, r)
          | None =>
              let '(tok, r) := span is_number_char s in
              match number_value tok with
              | Some v => Some (v, r)
              | None => None
              end
          end
      end
  end.

Fixpoint value (fuel : nat) (s : list ascii) : option (pyval * list ascii) :=
  match fuel with
  | O => None
  | S fuel =>
      match skip_ws s with
      | [] => None
      | c :: r =>
          if Ascii.eqb c "{"%char then
            match skip_ws r with
            | c' :: r' =>
                if Ascii.eqb c' "}"%char then Some (PDict ∅, r')
                else members fuel r ∅
            | [] => None
            end
          else if Ascii.eqb c "["%char then
            match skip_ws r with
            | c' :: r' =>
                if Ascii.eqb c' "]"%char then Some (PList [], r')
                else elements fuel r []
            | [] => None
            end
          else if Ascii.eqb c dq then
            match str_body r [] with
            | Some (str, r') => Some (PStr str, r')
            | None => None
            end
          else literal (c :: r)
      end
  end
with members (fuel : nat) (s : list ascii) (acc : gmap string pyval)
    : option (pyval * list ascii) :=
  match fuel with
  | O => None
  | S fuel =>
      match skip_ws s with
      | c :: r =>
          if Ascii.eqb c dq then
            match str_body r [] with
            | Some (k, r1) =>
                match skip_ws r1 with
                | c1 :: r2 =>
                    if Ascii.eqb c1 ":"%char then
                      match value fuel r2 with
                      | Some (v, r3) =>
                          match skip_ws r3 with
                          | c3 :: r4 =>
                              if Ascii.eqb c3 ","%char then
                                members fuel r4 (<[k:=v]> acc)
                              else if Ascii.eqb c3 "}"%char then
                                Some (PDict (<[k:=v]> acc), r4)
                              else None
                          | [] => None
                          end
                      | None => None
                      end
                    else None
                | [] => None
                end
            | None => None
            end
          else None
      | [] => None
      end
  end
with elements (fuel : nat) (s : list ascii) (acc : list pyval)
    : option (pyval * list ascii) :=
  match fuel with
  | O => None
  | S fuel =>
      match value fuel s with
      | Some (v, r) =>
          match skip_ws r with
          | c :: r' =>
              if Ascii.eqb c ","%char then elements fuel r' (acc ++ [v])
              else if Ascii.eqb c "]"%char then Some (PList (acc ++ [v]), r')
              else None
          | [] => None
          end
      | None => None
      end
  end.

Definition loads (s : string) : ext pyval :=
  let cs := list_ascii_of_string s in
  match value (2 * length cs + 2) cs with
  | Some (v, r) =>
      match skip_ws r with
      | [] => Returned v
      | _ :: _ => Failed "Extra data"
      end
  | None => Failed "Expecting value"
  end.

Definition escape_char (c : ascii) : string :=
  if Ascii.eqb c dq then String "\"%char (String dq "")
  else if Ascii.eqb c "\"%char then "\\"
  else if Ascii.eqb c "010"%char then "\n"
  else if Ascii.eqb c "009"%char then "\t"
  else if Ascii.eqb c "013"%char then "\r"
  else String c "".

Definition quote (s : string) : string :=
  String dq (String.concat "" (map escape_char (list_ascii_of_string s)))
  +:+ String dq "".

Definition dumps_atom (v : pyval) : string :=
  match v with
  | PBool true => "true"
  | PBool false => "false"
  | PStr s => quote s
  | _ => "null"
  end.

(** Enough of [json.dumps] for a dictionary of strings, booleans and
    [None]. *)
Definition dumps (v : pyval) : string :=
  match v with
  | PDict d =>
      "{" +:+
      String.concat ", "
        (map (fun kv => quote kv.1 +:+ ": " +:+ dumps_atom kv.2)
             (map_to_list d))
      +:+ "}"
  | _ => dumps_atom v
  end.

End JsonLite.

Module Demo.

Definition one_page (file : uploaded_file) : ext (list (ext string)) :=
  if String.eqb (content file) "" then Failed "Cannot read an empty file"
  else Returned [Returned (content file)].

(** The invoice text inside a prompt. *)
Definition invoice_text (prompt : string) : string :=
  substring (String.length prompt_head)
    (String.length prompt - String.length prompt_head
     - String.length prompt_tail)
    prompt.

Definition echo (prompt : string) : ext (option string) :=
  let text := invoice_text prompt in
  if String.prefix "!" text then Failed "service unavailable"
  else Returned (Some text).

Definition configured : Services :=
  {| PdfReader := one_page; client := Some echo;
     json_dumps := JsonLite.dumps; json_loads := JsonLite.loads |}.

Definition unconfigured : Services :=
  {| PdfReader := one_page; client := None;
     json_dumps := JsonLite.dumps; json_loads := JsonLite.loads |}.

Definition q : string := String JsonLite.dq "".

(** Three invoices as the model would answer them; the second one makes the
    call fail. *)
Definition invoice1 : uploaded_file :=
  {| name := "a.pdf";
     content := "Here you go: {" +:+ q +:+ "vendor_name" +:+ q +:+ ": "
                +:+ q +:+ "ACME" +:+ q +:+ ", " +:+ q +:+ "total_amount"
                +:+ q +:+ ": 50} Anything else?" |}.

Definition invoice2 : uploaded_file :=
  {| name := "b.pdf"; content := "! unreadable scan" |}.

Definition invoice3 : uploaded_file :=
  {| name := "c.pdf";
     content := "{" +:+ q +:+ "total_amount" +:+ q +:+ ": " +:+ q +:+ "100.0"
                +:+ q +:+ ", " +:+ q +:+ "amount_due" +:+ q +:+ ": 40.0, "
                +:+ q +:+ "payment_status" +:+ q +:+ ": null}" |}.

(** Texts with characters beyond ASCII, as their UTF-8 bytes: ["100"] in
    fullwidth digits (U+FF11, U+FF10, U+FF10), ["40"] after a no-break space
    (U+00A0), and ["5"] after the file separator (U+001C), which is white
    space for [str.strip] but not for [float()]. *)
Definition fullwidth_100 : string :=
  string_of_list_ascii
    (map ascii_of_nat [239; 188; 145; 239; 188; 144; 239; 188; 144]%nat).

Definition nbsp_40 : string :=
  string_of_list_ascii (map ascii_of_nat [194; 160; 52; 48]%nat).

Definition separator_5 : string :=
  string_of_list_ascii (map ascii_of_nat [28; 53]%nat).

End Demo.

(** ** Notions used in the statements *)

(** The label that the [if]/[elif]/[else] chain picks for the locals [due]
    and [total]. *)
Definition status_label (due total : pyval) : result string :=
  if py_eq_zero due then Ok "paid"%string
  else
    match py_lt due total with
    | Ok lt => Ok (if lt then "partial" else "unpaid")%string
    | Raise e => Raise e
    end.

(** The label derived from the [amount_due] and [total_amount] entries of a
    record, with the two defaults of the source: a falsy total counts as 0, a
    falsy amount due counts as the total. *)
Definition derived_status (d : gmap string pyval) : result string :=
  let total := py_or (dict_get d "total_amount") (PInt 0) in
  let due := py_or (dict_get d "amount_due") total in
  status_label due total.

(** [a <= b] on exact numbers. *)
Definition xleb (a b : xnum) : bool :=
  match xcompare a b with Some Lt | Some Eq => true | _ => false end.

(** The rule of the Payment Status Resolver in the words of the
    specification, on a total and an amount due that are numbers: an amount
    due of zero is paid, one above zero and below the total is partial, one
    that is at least the total is unpaid.  The rule names no label in any other
    case: an amount due below zero and below the total, or a NaN. *)
Definition resolve_status (total due : xnum) : option string :=
  if xeqb due (XFin 0 0) then Some "paid"%string
  else if xltb (XFin 0 0) due && xltb due total then Some "partial"%string
  else if xleb total due then Some "unpaid"%string
  else None.

(** How the specification reads the two fields of a record: a total that
    is null counts as 0, an amount due that is null counts as the total.  A
    field that holds anything but a number has no reading. *)
Definition stored_total (d : gmap string pyval) : option xnum :=
  match d !! "total_amount"%string with
  | None | Some PNone => Some (XFin 0 0)
  | Some v => num_of v
  end.

Definition stored_due (d : gmap string pyval) : option xnum :=
  match d !! "amount_due"%string with
  | None | Some PNone => stored_total d
  | Some v => num_of v
  end.

(** The label that the rule of the specification gives to a record. *)
Definition resolved_status (d : gmap string pyval) : option string :=
  match stored_total d, stored_due d with
  | Some total, Some due => resolve_status total due
  | _, _ => None
  end.

(** A value that the loop over [amounts] gets past: it is falsy and
    skipped, or [float()] accepts it. *)
Definition coercible_value (v : pyval) : bool :=
  negb (truthy v) ||
  match py_float v with Ok _ => true | Raise _ => false end.

Definition coercible (d : gmap string pyval) : bool :=
  forallb (fun k => coercible_value (dict_get d k)) amounts.

(** An entry that is missing or [None]. *)
Definition is_null (o : option pyval) : bool :=
  match o with
  | None | Some PNone => true
  | Some _ => false
  end.

(** The record holds an amount due that is falsy without being null (a
    zero), next to a total that is truthy: the records on which the default
    [data_dict.get("amount_due") or total] replaces a zero by the total. *)
Definition zero_due_of_nonzero_total (d : gmap string pyval) : bool :=
  negb (is_null (d !! "amount_due"%string)) &&
  negb (truthy (dict_get d "amount_due")) &&
  truthy (dict_get d "total_amount").

(** A float that is finite and not negative. *)
Definition finite_nonneg (f : spec_float) : bool :=
  match f with
  | S754_zero _ => true
  | S754_finite s _ _ => negb s
  | S754_infinity _ | S754_nan => false
  end.

(** What one file contributes to the rows of the result: its decoded
    payload, validated and tagged with the file name, provided that the
    text was read, the payload decoded to a dictionary, and that dictionary
    has no ["error"] key. *)
Definition record_of {S : Services} (file : uploaded_file)
    : option (gmap string pyval) :=
  match read_pdf file with
  | Failed _ => None
  | Returned pdf_text =>
      match json_loads (extract_invoice_data pdf_text).1 with
      | Returned (PDict d) =>
          match d !! "error"%string with
          | Some _ => None
          | None =>
              Some (<["source_file"%string := PStr (name file)]>
                      (validate_invoice_data d).1)
          end
      | _ => None
      end
  end.

(** [c] occurs in [s]. *)
Fixpoint occurs (c : ascii) (s : string) : bool :=
  match s with
  | EmptyString => false
  | String a s' => Ascii.eqb a c || occurs c s'
  end.

(** [s] starts with an opening brace and ends with a closing one. *)
Definition braced (s : string) : Prop :=
  exists mid, s = String "{"%char (mid +:+ String "}"%char "").

(** The rows that one file adds to the result: its record, or nothing. *)
Definition rows_of {S : Services} (file : uploaded_file)
    : list (gmap string pyval) :=
  match record_of file with
  | Some r => [r]
  | None => []
  end.

(** A call of the remote service. *)
Definition is_remote_call (ev : event) : bool :=
  match ev with
  | RemoteCall _ => true
  | _ => false
  end.

(** The report that a file was given up or answered with an error. *)
Definition is_failure_report (ev : event) : bool :=
  match ev with
  | FailedToProcess _ _ | ApiError _ => true
  | _ => false
  end.

(** ** Start-up: the API key and the client

    The module-level code that runs before any helper: the key is taken from
    the secrets store, else from the environment, else the placeholder is
    used; the client is built unless the key is the placeholder.  Keys are
    strings, as the deployment stores them. *)

Inductive startup_event :=
| DemoModeWarning
| ApiKeyInfo
| GroqCalled (api_key : string)
| NotConfiguredProperly.

Definition placeholder : string := "demo-key-placeholder".

(** The first [try]: [st.secrets["GROQ_API_KEY"]] raises when the secret
    is missing, and the handler falls back on
    [os.environ.get('GROQ_API_KEY')], which is [None] when unset; a missing
    or empty value ([not api_key]) switches to the placeholder. *)
Definition resolve_api_key (secret : ext string) (env : option string)
    : string * list startup_event :=
  match secret with
  | Returned api_key => (api_key, [])
  | Failed _ =>
      match env with
      | Some api_key =>
          if String.eqb api_key "" then
            (placeholder, [DemoModeWarning; ApiKeyInfo])
          else (api_key, [])
      | None => (placeholder, [DemoModeWarning; ApiKeyInfo])
      end
  end.

(** The second [try]: [Groq(api_key=api_key)] unless the key is the
    placeholder; an exception of the constructor leaves no client and shows
    an error. *)
Definition init_client {C : Type} (Groq : string -> ext C) (api_key : string)
    : option C * list startup_event :=
  if String.eqb api_key placeholder then (None, [])
  else
    match Groq api_key with
    | Returned c => (Some c, [GroqCalled api_key])
    | Failed _ => (None, [GroqCalled api_key; NotConfiguredProperly])
    end.

Definition startup {C : Type} (Groq : string -> ext C)
    (secret : ext string) (env : option string)
    : option C * list startup_event :=
  let '(api_key, shown) := resolve_api_key secret env in
  let '(c, shown') := init_client Groq api_key in
  (c, shown ++ shown').

(** ** Counting events *)

Fixpoint count {A : Type} (p : A -> bool) (l : list A) : nat :=
  match l with
  | [] => 0%nat
  | x :: l' => ((if p x then 1 else 0) + count p l')%nat
  end.

Definition is_processing (ev : event) : bool :=
  match ev with Processing _ _ _ => true | _ => false end.

Definition is_processed (ev : event) : bool :=
  match ev with Processed _ => true | _ => false end.

Definition is_api_error (ev : event) : bool :=
  match ev with ApiError _ => true | _ => false end.

Definition is_progress (ev : event) : bool :=
  match ev with Progress _ _ => true | _ => false end.

(** The text of a file was read. *)
Definition readable {S : Services} (file : uploaded_file) : bool :=
  match read_pdf file with Returned _ => true | Failed _ => false end.

(** The file gives a row. *)
Definition succeeds {S : Services} (file : uploaded_file) : bool :=
  match record_of file with Some _ => true | None => false end.

(** The file is answered with an error payload: its text was read and the
    payload decoded to a dictionary that has the ["error"] key. *)
Definition answers_with_error {S : Services} (file : uploaded_file) : bool :=
  match read_pdf file with
  | Returned pdf_text =>
      match json_loads (extract_invoice_data pdf_text).1 with
      | Returned (PDict d) => bool_decide (is_Some (d !! "error"%string))
      | _ => false
      end
  | Failed _ => false
  end.

(** The file is given up by the [except] handler. *)
Definition gives_up {S : Services} (file : uploaded_file) : bool :=
  negb (succeeds file) && negb (answers_with_error file).

(** The decoded payload is a JSON object. *)
Definition is_dict (obj : pyval) : bool :=
  match obj with PDict _ => true | _ => false end.

(** The text of a document whose pages were all extracted. *)
Fixpoint join_pages (texts : list string) : string :=
  match texts with
  | [] => EmptyString
  | t :: rest => t +:+ String "010"%char "" +:+ join_pages rest
  end.

(** An amount that counts as zero in the status chain: falsy as it is, or
    accepted by [float()] as a zero. *)
Definition zero_like (v : pyval) : bool :=
  negb (truthy v) ||
  match py_float v with
  | Ok x => negb (truthy (PFloat x))
  | Raise _ => false
  end.

(** An amount that counts in the status chain: truthy as it is, and
    accepted by [float()] as a number that is not zero. *)
Definition nonzero_amount (v : pyval) : bool :=
  truthy v &&
  match py_float v with
  | Ok x => truthy (PFloat x)
  | Raise _ => false
  end.

(** * Properties *)

(** ** Numbers *)

Lemma xcompare_refl_not_lt (x : xnum) : xltb x x = false.
Proof.
  unfold xltb. destruct x as [|[]|m e]; simpl; try reflexivity.
  now rewrite Z.compare_refl.
Qed.

Lemma truthy_float_not_zero (f : spec_float) :
  truthy (PFloat f) = true -> py_eq_zero (PFloat f) = false.
Proof.
  unfold truthy, py_eq_zero. simpl. now destruct (xeqb _ _).
Qed.

Lemma falsy_float_is_zero (f : spec_float) :
  truthy (PFloat f) = false -> py_eq_zero (PFloat f) = true.
Proof.
  unfold truthy, py_eq_zero. simpl. now destruct (xeqb _ _).
Qed.

Lemma py_float_of_float (f : spec_float) : py_float (PFloat f) = Ok f.
Proof. reflexivity. Qed.

(** ** [float()] at some strings *)

Example float_of_decimal_strings :
  py_float (PStr "100") = Ok (S754_finite false 7036874417766400 (-46)) /\
  py_float (PStr "  12.5 ") = Ok (S754_finite false 7036874417766400 (-49)) /\
  py_float (PStr "1_000") = Ok (S754_finite false 8796093022208000 (-43)) /\
  py_float (PStr "1e2") = Ok (S754_finite false 7036874417766400 (-46)) /\
  py_float (PStr "0.1") = Ok (S754_finite false 7205759403792794 (-56)) /\
  py_float (PStr "-0") = Ok (S754_zero true) /\
  py_float (PStr "1e400") = Ok (S754_infinity false) /\
  py_float (PStr "-Infinity") = Ok (S754_infinity true) /\
  py_float (PStr "NaN") = Ok S754_nan.
Proof. vm_compute. repeat split; reflexivity. Qed.

Example float_rejects :
  py_float (PStr "abc") = Raise ValueError /\
  py_float (PStr "") = Raise ValueError /\
  py_float (PStr "1,5") = Raise ValueError /\
  py_float (PStr "1e") = Raise ValueError /\
  py_float (PStr "1__0") = Raise ValueError /\
  py_float (PStr "_1") = Raise ValueError /\
  py_float (PStr "0x10") = Raise ValueError /\
  py_float (PStr "1 2") = Raise ValueError /\
  py_float (PStr "$5") = Raise ValueError /\
  py_float PNone = Raise TypeError /\
  py_float (PList [PInt 1]) = Raise TypeError /\
  py_float (PInt (10 ^ 400)) = Raise OverflowError.
Proof. vm_compute. repeat split; reflexivity. Qed.

(** Digits and white space beyond ASCII are read; the separator characters
    U+001C to U+001F are not white space here. *)
Example float_beyond_ascii :
  py_float (PStr Demo.fullwidth_100)
    = Ok (S754_finite false 7036874417766400 (-46)) /\
  py_float (PStr Demo.nbsp_40)
    = Ok (S754_finite false 5629499534213120 (-47)) /\
  py_float (PStr Demo.separator_5) = Raise ValueError.
Proof. vm_compute. repeat split; reflexivity. Qed.

(** ** The loop over [amounts] *)

Lemma amounts_NoDup : NoDup amounts.
Proof. compute_done. Qed.

Lemma truthy_is_present (d : gmap string pyval) (k : string) :
  truthy (dict_get d k) = true -> d !! k = Some (dict_get d k).
Proof.
  unfold dict_get. destruct (d !! k); simpl; [reflexivity | discriminate].
Qed.

Lemma coerce_amount_falsy (d : gmap string pyval) (k : string) :
  truthy (dict_get d k) = false -> coerce_amount k d = (Ok tt, d).
Proof.
  intros H. unfold coerce_amount, mbind, M_bind, get. now rewrite H.
Qed.

Lemma coerce_amount_ok (d : gmap string pyval) (k : string) f :
  truthy (dict_get d k) = true ->
  py_float (dict_get d k) = Ok f ->
  coerce_amount k d = (Ok tt, <[k:=PFloat f]> d).
Proof.
  intros Ht Hf. unfold coerce_amount, mbind, M_bind, get, getitem, lift.
  rewrite Ht, (truthy_is_present _ _ Ht), Hf. reflexivity.
Qed.

Lemma coerce_amount_raise (d : gmap string pyval) (k : string) e :
  truthy (dict_get d k) = true ->
  py_float (dict_get d k) = Raise e ->
  coerce_amount k d = (Raise e, d).
Proof.
  intros Ht Hf. unfold coerce_amount, mbind, M_bind, get, getitem, lift.
  rewrite Ht, (truthy_is_present _ _ Ht), Hf. reflexivity.
Qed.

Lemma for_each_cons {A} (x : A) xs (body : A -> M unit) d :
  for_each (x :: xs) body d =
  match body x d with
  | (Ok _, d') => for_each xs body d'
  | (Raise e, d') => (Raise e, d')
  end.
Proof. reflexivity. Qed.

Lemma dict_get_insert_ne (d : gmap string pyval) k k' v :
  k ≠ k' -> dict_get (<[k:=v]> d) k' = dict_get d k'.
Proof. intros. unfold dict_get. now rewrite lookup_insert_ne. Qed.

Lemma dict_get_insert_eq (d : gmap string pyval) k v :
  dict_get (<[k:=v]> d) k = v.
Proof. unfold dict_get. now rewrite lookup_insert_eq. Qed.

(** The three ways one iteration can go. *)
Lemma coerce_amount_cases (d : gmap string pyval) (k : string) :
  (truthy (dict_get d k) = false /\ coerce_amount k d = (Ok tt, d)) \/
  (exists f, truthy (dict_get d k) = true /\ py_float (dict_get d k) = Ok f /\
             coerce_amount k d = (Ok tt, <[k:=PFloat f]> d)) \/
  (exists e, truthy (dict_get d k) = true /\
             py_float (dict_get d k) = Raise e /\
             coerce_amount k d = (Raise e, d)).
Proof.
  destruct (truthy (dict_get d k)) eqn:Ht.
  - destruct (py_float (dict_get d k)) as [f|e] eqn:Hf.
    + right; left. exists f. eauto using coerce_amount_ok.
    + right; right. exists e. eauto using coerce_amount_raise.
  - left. eauto using coerce_amount_falsy.
Qed.

Lemma for_each_app {A} (xs ys : list A) (body : A -> M unit) d :
  for_each (xs ++ ys) body d =
  match for_each xs body d with
  | (Ok _, d') => for_each ys body d'
  | (Raise e, d') => (Raise e, d')
  end.
Proof.
  revert d. induction xs as [|x xs IH]; intros d; [reflexivity|].
  simpl app. rewrite !for_each_cons.
  destruct (body x d) as [[[]|e] d1]; [apply IH | reflexivity].
Qed.

Ltac loop_step d x H :=
  rewrite for_each_cons in H;
  let Ht := fresh "Ht" in
  let Hf := fresh "Hf" in
  let Hc := fresh "Hc" in
  destruct (coerce_amount_cases d x)
    as [[Ht Hc]|[(? & Ht & Hf & Hc)|(? & Ht & Hf & Hc)]];
  rewrite Hc in H.

(** Keys outside the loop's list are not touched. *)
Lemma loop_frame keys : forall d r d',
  for_each keys coerce_amount d = (r, d') ->
  forall k, k ∉ keys -> d' !! k = d !! k.
Proof.
  induction keys as [|x xs IH]; intros d r d' H k Hk.
  - injection H as <- <-. reflexivity.
  - apply not_elem_of_cons in Hk as [Hne Hk]. loop_step d x H.
    + eauto.
    + erewrite IH by eauto. now apply lookup_insert_ne.
    + injection H as <- <-. reflexivity.
Qed.

(** Every key of the list ends up unchanged, or holding the float that
    [float()] gave for its truthy value. *)
Lemma loop_lookup keys : forall d r d',
  NoDup keys ->
  for_each keys coerce_amount d = (r, d') ->
  forall k, k ∈ keys ->
    d' !! k = d !! k \/
    (truthy (dict_get d k) = true /\
     exists f, py_float (dict_get d k) = Ok f /\ d' !! k = Some (PFloat f)).
Proof.
  induction keys as [|x xs IH]; intros d r d' Hnd H k Hk.
  - now apply elem_of_nil in Hk.
  - apply NoDup_cons in Hnd as [Hx Hnd].
    apply elem_of_cons in Hk as [->|Hk]; loop_step d x H.
    + left. eapply loop_frame; eauto.
    + right. split; [assumption|]. eexists; split; [eassumption|].
      erewrite loop_frame by eauto. apply lookup_insert_eq.
    + left. injection H as <- <-. reflexivity.
    + eauto.
    + assert (x ≠ k) by (intros ->; contradiction).
      destruct (IH _ _ _ Hnd H k Hk) as [E|E].
      * left. rewrite E. now apply lookup_insert_ne.
      * right. now rewrite dict_get_insert_ne in E.
    + left. injection H as <- <-. reflexivity.
Qed.

(** When the loop completes, every truthy value of the list has been
    replaced by its float, and every falsy one is as it was. *)
Lemma loop_ok_lookup keys : forall d d',
  NoDup keys ->
  for_each keys coerce_amount d = (Ok tt, d') ->
  forall k, k ∈ keys ->
    if truthy (dict_get d k)
    then exists f, py_float (dict_get d k) = Ok f /\ d' !! k = Some (PFloat f)
    else d' !! k = d !! k.
Proof.
  induction keys as [|x xs IH]; intros d d' Hnd H k Hk.
  - now apply elem_of_nil in Hk.
  - apply NoDup_cons in Hnd as [Hx Hnd].
    apply elem_of_cons in Hk as [->|Hk]; loop_step d x H.
    + rewrite Ht. eapply loop_frame; eauto.
    + rewrite Ht. eexists; split; [eassumption|].
      erewrite loop_frame by eauto. apply lookup_insert_eq.
    + discriminate.
    + exact (IH _ _ Hnd H k Hk).
    + assert (x ≠ k) by (intros ->; contradiction).
      specialize (IH _ _ Hnd H k Hk).
      rewrite dict_get_insert_ne in IH by assumption.
      destruct (truthy (dict_get d k)); [assumption|].
      rewrite IH. now apply lookup_insert_ne.
    + discriminate.
Qed.

(** The loop completes exactly on the records whose amounts are all
    coercible. *)
Lemma loop_succeeds keys : forall d,
  NoDup keys ->
  (forall k, k ∈ keys -> coercible_value (dict_get d k) = true) ->
  exists d', for_each keys coerce_amount d = (Ok tt, d').
Proof.
  induction keys as [|x xs IH]; intros d Hnd Hall.
  - now exists d.
  - apply NoDup_cons in Hnd as [Hx Hnd]. rewrite for_each_cons.
    destruct (coerce_amount_cases d x)
      as [[Ht Hc]|[(f & Ht & Hf & Hc)|(e & Ht & Hf & Hc)]]; rewrite Hc.
    + apply IH; [assumption|]. intros k Hk. apply Hall. now right.
    + apply IH; [assumption|]. intros k Hk.
      assert (x ≠ k) by (intros ->; contradiction).
      rewrite dict_get_insert_ne by assumption. apply Hall. now right.
    + specialize (Hall x (list_elem_of_here _ _)).
      unfold coercible_value in Hall. now rewrite Ht, Hf in Hall.
Qed.

Lemma loop_ok_coercible keys d d' :
  NoDup keys ->
  for_each keys coerce_amount d = (Ok tt, d') ->
  forall k, k ∈ keys -> coercible_value (dict_get d k) = true.
Proof.
  intros Hnd H k Hk. pose proof (loop_ok_lookup _ _ _ Hnd H k Hk) as L.
  unfold coercible_value. destruct (truthy (dict_get d k)); [|reflexivity].
  destruct L as (f & -> & _). reflexivity.
Qed.

Lemma coercible_spec (d : gmap string pyval) :
  coercible d = true <->
  forall k, k ∈ amounts -> coercible_value (dict_get d k) = true.
Proof.
  unfold coercible. rewrite forallb_forall. split; intros H k Hk.
  - apply H. now apply list_elem_of_In.
  - apply H. now apply list_elem_of_In.
Qed.

Lemma coercible_loop (d : gmap string pyval) :
  coercible d = true ->
  exists d', for_each amounts coerce_amount d = (Ok tt, d').
Proof.
  intros H. apply loop_succeeds; [apply amounts_NoDup|].
  now apply coercible_spec.
Qed.

Lemma not_coercible_loop (d : gmap string pyval) :
  coercible d = false ->
  exists e d', for_each amounts coerce_amount d = (Raise e, d').
Proof.
  intros H.
  destruct (for_each amounts coerce_amount d) as [[[]|e] d'] eqn:E; [|eauto].
  exfalso. pose proof (loop_ok_coercible _ _ _ amounts_NoDup E) as L.
  apply coercible_spec in L. congruence.
Qed.

(** The first amount whose value [float()] rejects stops the loop: the
    amounts before it have been coerced, and nothing else has changed. *)
Lemma loop_first_failure pre k post d e :
  NoDup (pre ++ k :: post) ->
  (forall k', k' ∈ pre -> coercible_value (dict_get d k') = true) ->
  truthy (dict_get d k) = true ->
  py_float (dict_get d k) = Raise e ->
  exists d', for_each pre coerce_amount d = (Ok tt, d') /\
             for_each (pre ++ k :: post) coerce_amount d = (Raise e, d').
Proof.
  intros Hnd Hpre Ht Hf.
  apply NoDup_app in Hnd as (Hnd1 & Hdisj & Hnd2).
  destruct (loop_succeeds pre d Hnd1 Hpre) as [d' Hd'].
  exists d'. split; [assumption|].
  rewrite for_each_app, Hd', for_each_cons.
  assert (Hk : k ∉ pre).
  { intros Hin. apply (Hdisj k Hin). now left. }
  assert (Hget : dict_get d' k = dict_get d k).
  { unfold dict_get. now rewrite (loop_frame _ _ _ _ Hd' k Hk). }
  rewrite (coerce_amount_raise d' k e); [reflexivity| |]; now rewrite Hget.
Qed.

(** A loop that raised stopped at some amount: the amounts before it were
    gone through, and its value, truthy, is what [float()] rejected. *)
Lemma loop_raise_at keys : forall d e d1,
  for_each keys coerce_amount d = (Raise e, d1) ->
  exists pre k0 post,
    keys = pre ++ k0 :: post /\
    for_each pre coerce_amount d = (Ok tt, d1) /\
    truthy (dict_get d1 k0) = true /\
    py_float (dict_get d1 k0) = Raise e.
Proof.
  induction keys as [|x xs IH]; intros d e d1 H; [discriminate|].
  loop_step d x H.
  - destruct (IH _ _ _ H) as (pre & k0 & post & -> & Hp & Ht' & Hf').
    exists (x :: pre), k0, post. split; [reflexivity|].
    split; [|now split]. now rewrite for_each_cons, Hc.
  - destruct (IH _ _ _ H) as (pre & k0 & post & -> & Hp & Ht' & Hf').
    exists (x :: pre), k0, post. split; [reflexivity|].
    split; [|now split]. now rewrite for_each_cons, Hc.
  - injection H as <- <-. exists [], x, xs. now repeat split.
Qed.

(** The total comes before the amount due only. *)
Lemma total_not_before (pre : list string) (k0 : string) (post : list string) :
  amounts = pre ++ k0 :: post ->
  k0 ≠ "amount_due"%string ->
  "total_amount"%string ∉ pre.
Proof.
  unfold amounts. intros Ha Hk0.
  destruct pre as [|a1 [|a2 [|a3 [|a4 [|a5 pre]]]]]; simpl in Ha.
  - apply not_elem_of_nil.
  - injection Ha as <- _. compute_done.
  - injection Ha as <- <- _. compute_done.
  - injection Ha as <- <- <- _. compute_done.
  - injection Ha as _ _ _ _ E _. congruence.
  - injection Ha as _ _ _ _ _ E. now destruct pre.
Qed.

(** Writing a key that is not in the list commutes with the loop. *)
Lemma loop_insert_other keys k0 v : forall d r d',
  k0 ∉ keys ->
  for_each keys coerce_amount d = (r, d') ->
  for_each keys coerce_amount (<[k0:=v]> d) = (r, <[k0:=v]> d').
Proof.
  induction keys as [|x xs IH]; intros d r d' Hk H.
  - injection H as <- <-. reflexivity.
  - apply not_elem_of_cons in Hk as [Hne Hk]. rewrite for_each_cons.
    assert (Hget : dict_get (<[k0:=v]> d) x = dict_get d x)
      by now apply dict_get_insert_ne.
    loop_step d x H.
    + rewrite coerce_amount_falsy by now rewrite Hget. eauto.
    + rewrite (coerce_amount_ok _ _ x0) by now rewrite Hget.
      rewrite insert_insert_ne by congruence. eauto.
    + rewrite (coerce_amount_raise _ _ x0) by now rewrite Hget.
      injection H as <- <-. reflexivity.
Qed.

(** Running the loop again on its own output changes nothing and ends the
    same way. *)
Lemma loop_idempotent keys : forall d r d',
  NoDup keys ->
  for_each keys coerce_amount d = (r, d') ->
  for_each keys coerce_amount d' = (r, d').
Proof.
  induction keys as [|x xs IH]; intros d r d' Hnd H.
  - injection H as <- <-. reflexivity.
  - apply NoDup_cons in Hnd as [Hx Hnd]. rewrite for_each_cons.
    loop_step d x H.
    + assert (Hget : dict_get d' x = dict_get d x).
      { unfold dict_get. now rewrite (loop_frame _ _ _ _ H x Hx). }
      rewrite coerce_amount_falsy by now rewrite Hget. eauto.
    + assert (Hl : d' !! x = Some (PFloat x0)).
      { rewrite (loop_frame _ _ _ _ H x Hx). apply lookup_insert_eq. }
      assert (Hget : dict_get d' x = PFloat x0)
        by (unfold dict_get; now rewrite Hl).
      destruct (truthy (PFloat x0)) eqn:Tf.
      * rewrite (coerce_amount_ok _ _ x0) by now rewrite Hget.
        rewrite (insert_id _ _ _ Hl). eauto.
      * rewrite coerce_amount_falsy by now rewrite Hget. eauto.
    + injection H as <- <-. now rewrite (coerce_amount_raise _ _ x0).
Qed.

(** The loop never adds or removes a key. *)
Lemma loop_dom keys : forall d r d',
  for_each keys coerce_amount d = (r, d') -> dom d' = dom d.
Proof.
  induction keys as [|x xs IH]; intros d r d' H.
  - injection H as <- <-. reflexivity.
  - loop_step d x H.
    + eauto.
    + rewrite (IH _ _ _ H). apply dom_insert_lookup_L.
      rewrite (truthy_is_present _ _ Ht). eauto.
    + injection H as <- <-. reflexivity.
Qed.

(** After a completed loop an amount is falsy or a float. *)
Lemma loop_ok_value keys d d' k :
  NoDup keys ->
  for_each keys coerce_amount d = (Ok tt, d') ->
  k ∈ keys ->
  truthy (dict_get d' k) = true ->
  exists f, dict_get d' k = PFloat f.
Proof.
  intros Hnd H Hk Ht. pose proof (loop_ok_lookup _ _ _ Hnd H k Hk) as L.
  destruct (truthy (dict_get d k)) eqn:E.
  - destruct L as (f & _ & Hl). exists f. unfold dict_get. now rewrite Hl.
  - unfold dict_get in Ht, E. rewrite L in Ht. congruence.
Qed.

(** ** The status chain *)

Lemma set_payment_status_spec due total (d : gmap string pyval) :
  set_payment_status due total d =
  match status_label due total with
  | Ok s => (Ok tt, <["payment_status"%string := PStr s]> d)
  | Raise e => (Raise e, d)
  end.
Proof.
  unfold set_payment_status, status_label.
  destruct (py_eq_zero due); [reflexivity|].
  unfold mbind, M_bind, lift.
  destruct (py_lt due total) as [[]|]; reflexivity.
Qed.

Lemma validate_body_unfold (d : gmap string pyval) :
  validate_body d =
  match for_each amounts coerce_amount d with
  | (Ok _, d1) =>
      match derived_status d1 with
      | Ok s => (Ok tt, <["payment_status"%string := PStr s]> d1)
      | Raise e => (Raise e, d1)
      end
  | (Raise e, d1) => (Raise e, d1)
  end.
Proof.
  unfold validate_body. unfold mbind at 1. unfold M_bind at 1.
  destruct (for_each amounts coerce_amount d) as [[[]|e] d1]; [|reflexivity].
  unfold derived_status. rewrite <- set_payment_status_spec. reflexivity.
Qed.

(** The operands of the comparison are numbers: a float that the loop
    wrote, or the integer 0 of the defaults. *)
Lemma validated_operands_numeric (d d1 : gmap string pyval) :
  for_each amounts coerce_amount d = (Ok tt, d1) ->
  let total := py_or (dict_get d1 "total_amount") (PInt 0) in
  let due := py_or (dict_get d1 "amount_due") total in
  (exists x, num_of total = Some x) /\ (exists y, num_of due = Some y).
Proof.
  intros H total due.
  assert (Ht : exists x, num_of total = Some x).
  { subst total. unfold py_or.
    destruct (truthy (dict_get d1 "total_amount")) eqn:E; [|simpl; eauto].
    destruct (loop_ok_value amounts d d1 "total_amount" amounts_NoDup H)
      as [f ->]; [compute_done | assumption | simpl; eauto]. }
  split; [assumption|].
  subst due. unfold py_or at 1.
  destruct (truthy (dict_get d1 "amount_due")) eqn:E; [|assumption].
  destruct (loop_ok_value amounts d d1 "amount_due" amounts_NoDup H)
    as [f ->]; [compute_done | assumption | simpl; eauto].
Qed.

Lemma derived_status_defined (d d1 : gmap string pyval) :
  for_each amounts coerce_amount d = (Ok tt, d1) ->
  exists s, derived_status d1 = Ok s /\
            (s = "paid" \/ s = "partial" \/ s = "unpaid")%string.
Proof.
  intros H. destruct (validated_operands_numeric d d1 H) as [[x Hx] [y Hy]].
  unfold derived_status, status_label.
  destruct (py_eq_zero _); [eauto|].
  unfold py_lt. rewrite Hx, Hy. destruct (xltb y x); eauto.
Qed.

(** ** [validate_invoice_data] on coercible and on other records *)

Lemma validate_coercible (d : gmap string pyval) :
  coercible d = true ->
  exists d1 s,
    for_each amounts coerce_amount d = (Ok tt, d1) /\
    derived_status d1 = Ok s /\
    validate_invoice_data d =
      (<["payment_status"%string := PStr s]> d1, []).
Proof.
  intros Hc. destruct (coercible_loop d Hc) as [d1 H1].
  destruct (derived_status_defined d d1 H1) as (s & Hs & _).
  exists d1, s. repeat split; try assumption.
  unfold validate_invoice_data. now rewrite validate_body_unfold, H1, Hs.
Qed.

Lemma validate_not_coercible (d : gmap string pyval) :
  coercible d = false ->
  exists e d1,
    for_each amounts coerce_amount d = (Raise e, d1) /\
    validate_invoice_data d = (d1, [LogWarning e]).
Proof.
  intros Hc. destruct (not_coercible_loop d Hc) as (e & d1 & H1).
  exists e, d1. split; [assumption|].
  unfold validate_invoice_data. now rewrite validate_body_unfold, H1.
Qed.

Lemma derived_status_insert_status (d : gmap string pyval) v :
  derived_status (<["payment_status"%string := v]> d) = derived_status d.
Proof.
  unfold derived_status. now rewrite !dict_get_insert_ne by discriminate.
Qed.

(** With a falsy amount due after the loop the label depends on the total
    alone. *)
Lemma falsy_due_label (d d1 : gmap string pyval) (s : string) :
  for_each amounts coerce_amount d = (Ok tt, d1) ->
  derived_status d1 = Ok s ->
  truthy (dict_get d1 "amount_due") = false ->
  s = (if truthy (dict_get d1 "total_amount") then "unpaid" else "paid")%string.
Proof.
  intros H1 Hs Hd1.
  unfold derived_status in Hs. unfold py_or at 1 in Hs. rewrite Hd1 in Hs.
  unfold py_or in Hs.
  destruct (truthy (dict_get d1 "total_amount")) eqn:Tt.
  - destruct (loop_ok_value amounts d d1 "total_amount" amounts_NoDup H1)
      as [f Ef]; [compute_done | assumption |].
    rewrite Ef in Hs, Tt. unfold status_label in Hs.
    rewrite (truthy_float_not_zero _ Tt) in Hs.
    unfold py_lt in Hs. simpl num_of in Hs. cbv beta iota in Hs.
    rewrite xcompare_refl_not_lt in Hs. now injection Hs.
  - unfold status_label in Hs. simpl in Hs. now injection Hs.
Qed.

(** ** The rule of the specification and the chain of the code *)

(** The chain itself follows the rule on the locals it is given: a
    zero [due] is ["paid"], a [due] below [total] is ["partial"], anything else
    is ["unpaid"]. *)
Lemma status_label_numeric due total x y :
  num_of due = Some x -> num_of total = Some y ->
  status_label due total =
  Ok (if xeqb x (XFin 0 0) then "paid"
      else if xltb x y then "partial" else "unpaid")%string.
Proof.
  intros Hx Hy. unfold status_label, py_eq_zero, py_lt. rewrite Hx, Hy.
  destruct (xeqb x (XFin 0 0)); reflexivity.
Qed.

Lemma xcompare_antisym (a b : xnum) (c : comparison) :
  xcompare a b = Some c -> xcompare b a = Some (CompOpp c).
Proof.
  destruct a as [|s1|m1 e1], b as [|s2|m2 e2]; simpl; try discriminate.
  - destruct s1, s2; intros [= <-]; reflexivity.
  - destruct s1; intros [= <-]; reflexivity.
  - destruct s2; intros [= <-]; reflexivity.
  - intros [= <-]. rewrite (Z.min_comm e2 e1). now rewrite Z.compare_antisym.
Qed.

Lemma xleb_not_lt (a b : xnum) : xleb a b = true -> xltb b a = false.
Proof.
  unfold xleb, xltb. destruct (xcompare a b) as [c|] eqn:E; [|discriminate].
  rewrite (xcompare_antisym _ _ _ E). now destruct c.
Qed.

(** A number that is falsy is zero. *)
Lemma falsy_number_is_zero (v : pyval) (x : xnum) :
  truthy v = false -> num_of v = Some x -> x = XFin 0 0.
Proof.
  destruct v as [|b|z|f|s|l|m]; simpl; try discriminate.
  - intros -> [= <-]. reflexivity.
  - intros Hz [= <-]. apply negb_false_iff, Z.eqb_eq in Hz. now subst z.
  - intros Hz [= <-]. apply negb_false_iff in Hz.
    destruct f as [s|s| |s p e]; try reflexivity;
      try (now destruct s); try discriminate.
    exfalso. unfold xeqb, xnum_of_float, xcompare in Hz.
    destruct (Z.compare_spec (cond_Zopp s (Z.pos p) * 2 ^ (e - Z.min e 0))
                             (0 * 2 ^ (0 - Z.min e 0))) as [E|E|E];
      try discriminate.
    rewrite Z.mul_0_l in E. apply Z.mul_eq_0 in E as [E|E].
    + destruct s; simpl in E; lia.
    + assert (0 < 2 ^ (e - Z.min e 0)) by (apply Z.pow_pos_nonneg; lia). lia.
Qed.

(** On two numbers, a label that the rule names is the label of the
    chain. *)
Lemma status_label_follows_rule (due total : pyval) (x y : xnum) (l : string) :
  num_of due = Some x -> num_of total = Some y ->
  resolve_status y x = Some l ->
  status_label due total = Ok l.
Proof.
  intros Hx Hy Hl. rewrite (status_label_numeric due total x y Hx Hy).
  unfold resolve_status in Hl.
  destruct (xeqb x (XFin 0 0)); [now injection Hl as <-|].
  destruct (xltb (XFin 0 0) x && xltb x y) eqn:Hp.
  - apply andb_true_iff in Hp as [_ ->]. now injection Hl as <-.
  - destruct (xleb y x) eqn:Hu; [|discriminate].
    rewrite (xleb_not_lt _ _ Hu). now injection Hl as <-.
Qed.

Lemma resolved_status_insert_status (d : gmap string pyval) v :
  resolved_status (<["payment_status"%string := v]> d) = resolved_status d.
Proof.
  unfold resolved_status, stored_due, stored_total.
  now rewrite !lookup_insert_ne by discriminate.
Qed.

Lemma zero_due_insert_status (d : gmap string pyval) v :
  zero_due_of_nonzero_total (<["payment_status"%string := v]> d)
  = zero_due_of_nonzero_total d.
Proof.
  unfold zero_due_of_nonzero_total.
  rewrite !dict_get_insert_ne by discriminate.
  now rewrite lookup_insert_ne by discriminate.
Qed.

(** The total that the chain compares with is the total as the
    specification reads it. *)
Lemma chain_total (d d1 : gmap string pyval) (y : xnum) :
  for_each amounts coerce_amount d = (Ok tt, d1) ->
  stored_total d1 = Some y ->
  num_of (py_or (dict_get d1 "total_amount") (PInt 0)) = Some y.
Proof.
  intros H1 Hy. unfold py_or.
  destruct (truthy (dict_get d1 "total_amount")) eqn:Tt.
  - destruct (loop_ok_value amounts d d1 "total_amount" amounts_NoDup H1)
      as [f Ef]; [compute_done | assumption |].
    rewrite Ef. unfold stored_total in Hy. unfold dict_get in Ef.
    destruct (d1 !! "total_amount"%string) as [v|]; simpl in Ef;
      [subst v; exact Hy | discriminate].
  - unfold stored_total in Hy. unfold dict_get in Tt.
    destruct (d1 !! "total_amount"%string) as [v|]; simpl in Tt;
      [|exact Hy].
    destruct v; try exact Hy;
      now rewrite (falsy_number_is_zero _ _ Tt Hy).
Qed.

(** Unless the record holds a zero amount due next to a total that is not
    zero, the amount due that the chain compares is the amount due as the
    specification reads it. *)
Lemma chain_due (d d1 : gmap string pyval) (x y : xnum) :
  for_each amounts coerce_amount d = (Ok tt, d1) ->
  stored_total d1 = Some y ->
  stored_due d1 = Some x ->
  zero_due_of_nonzero_total d1 = false ->
  num_of (py_or (dict_get d1 "amount_due")
            (py_or (dict_get d1 "total_amount") (PInt 0))) = Some x.
Proof.
  intros H1 Hy Hx Hz. pose proof (chain_total d d1 y H1 Hy) as Ht.
  unfold py_or at 1.
  destruct (truthy (dict_get d1 "amount_due")) eqn:Td.
  - destruct (loop_ok_value amounts d d1 "amount_due" amounts_NoDup H1)
      as [f Ef]; [compute_done | assumption |].
    rewrite Ef. unfold stored_due in Hx. unfold dict_get in Ef.
    destruct (d1 !! "amount_due"%string) as [v|]; simpl in Ef;
      [subst v; exact Hx | discriminate].
  - unfold zero_due_of_nonzero_total in Hz. rewrite Td in Hz.
    unfold stored_due in Hx. unfold dict_get in Td.
    destruct (d1 !! "amount_due"%string) as [v|]; simpl in Td, Hz;
      [|now rewrite Ht, <- Hx, Hy].
    destruct v; try (now rewrite Ht, <- Hx, Hy); simpl in Hz;
      rewrite (falsy_number_is_zero _ _ Td Hx);
      unfold py_or; rewrite Hz; reflexivity.
Qed.

(** Where the rule of the specification names a label for the record that
    the loop left, and the record does not hold a zero amount due next to a
    total that is not zero, the chain writes that label. *)
Lemma chain_follows_rule (d d1 : gmap string pyval) (s l : string) :
  for_each amounts coerce_amount d = (Ok tt, d1) ->
  derived_status d1 = Ok s ->
  resolved_status d1 = Some l ->
  zero_due_of_nonzero_total d1 = false ->
  s = l.
Proof.
  intros H1 Hs Hl Hz. unfold resolved_status in Hl.
  destruct (stored_total d1) as [y|] eqn:Hy; [|discriminate].
  destruct (stored_due d1) as [x|] eqn:Hx; [|discriminate].
  unfold derived_status in Hs.
  rewrite (status_label_follows_rule _ _ x y l
             (chain_due d d1 x y H1 Hy Hx Hz) (chain_total d d1 y H1 Hy) Hl)
    in Hs.
  now injection Hs.
Qed.

(** On a record that holds a zero amount due next to a total that is not
    zero, the rule of the specification says ["paid"] and the chain writes
    ["unpaid"]. *)
Lemma chain_departs_from_rule (d d1 : gmap string pyval) (s l : string) :
  for_each amounts coerce_amount d = (Ok tt, d1) ->
  derived_status d1 = Ok s ->
  resolved_status d1 = Some l ->
  zero_due_of_nonzero_total d1 = true ->
  l = "paid"%string /\ s = "unpaid"%string.
Proof.
  intros H1 Hs Hl Hz. unfold zero_due_of_nonzero_total in Hz.
  apply andb_true_iff in Hz as [Hz Ht]. apply andb_true_iff in Hz as [Hn Hd].
  apply negb_true_iff in Hn, Hd. split.
  - unfold resolved_status in Hl.
    destruct (stored_total d1) as [y|]; [|discriminate].
    destruct (stored_due d1) as [x|] eqn:Hx; [|discriminate].
    assert (Hx0 : x = XFin 0 0).
    { unfold stored_due in Hx. unfold dict_get in Hd.
      destruct (d1 !! "amount_due"%string) as [v|]; simpl in Hn, Hd;
        [|discriminate].
      destruct v; try discriminate; exact (falsy_number_is_zero _ _ Hd Hx). }
    subst x. unfold resolve_status in Hl. simpl in Hl. now injection Hl.
  - rewrite (falsy_due_label d d1 s H1 Hs Hd). now rewrite Ht.
Qed.

(** ** The claims about [validate_invoice_data] *)

(** C1 (the code departs from the rule at a zero amount due).  For the
    record with [total_amount = 100] and [amount_due = 0] the rule asks for
    ["paid"]; the default [data_dict.get("amount_due") or total] takes the
    zero for a missing value, so the status written is ["unpaid"]. *)
Theorem zero_amount_due_is_reported_unpaid :
  (validate_invoice_data
     {[ "total_amount"%string := PInt 100;
        "amount_due"%string := PInt 0 ]}).1 !! "payment_status"%string
  = Some (PStr "unpaid").
Proof. vm_compute. reflexivity. Qed.

(** The other three examples of the rule come out as stated. *)
Example status_partial_100_40 :
  (validate_invoice_data
     {[ "total_amount"%string := PInt 100;
        "amount_due"%string := PInt 40 ]}).1 !! "payment_status"%string
  = Some (PStr "partial").
Proof. vm_compute. reflexivity. Qed.

Example status_unpaid_100_100 :
  (validate_invoice_data
     {[ "total_amount"%string := PInt 100;
        "amount_due"%string := PInt 100 ]}).1 !! "payment_status"%string
  = Some (PStr "unpaid").
Proof. vm_compute. reflexivity. Qed.

Example status_paid_0_0 :
  (validate_invoice_data
     {[ "total_amount"%string := PInt 0;
        "amount_due"%string := PInt 0 ]}).1 !! "payment_status"%string
  = Some (PStr "paid").
Proof. vm_compute. reflexivity. Qed.

(** X2.  ["paid"] is written only when the amount due and the total are
    both falsy: a zero amount due next to a total that is not zero never yields
    it. *)
Lemma paid_only_when_both_falsy (d : gmap string pyval) :
  (validate_invoice_data d).2 = [] ->
  (validate_invoice_data d).1 !! "payment_status"%string = Some (PStr "paid") ->
  let out := (validate_invoice_data d).1 in
  truthy (dict_get out "amount_due") = false /\
  truthy (dict_get out "total_amount") = false.
Proof.
  intros Hlog Hpaid out. subst out.
  destruct (coercible d) eqn:Hc.
  2:{ destruct (validate_not_coercible d Hc) as (e & d1 & _ & Hv).
      rewrite Hv in Hlog. discriminate. }
  destruct (validate_coercible d Hc) as (d1 & s & H1 & Hs & Hv).
  rewrite Hv in *. simpl fst in *.
  rewrite lookup_insert_eq in Hpaid. injection Hpaid as ->.
  rewrite !dict_get_insert_ne by discriminate.
  unfold derived_status, py_or in Hs.
  destruct (truthy (dict_get d1 "amount_due")) eqn:Td.
  - exfalso.
    destruct (loop_ok_value amounts d d1 "amount_due" amounts_NoDup H1)
      as [f Ef]; [compute_done | assumption |].
    rewrite Ef in Hs, Td. unfold status_label in Hs.
    rewrite (truthy_float_not_zero _ Td) in Hs.
    destruct (py_lt _ _) as [[]|]; discriminate.
  - split; [reflexivity|].
    destruct (truthy (dict_get d1 "total_amount")) eqn:Tt; [|reflexivity].
    exfalso.
    destruct (loop_ok_value amounts d d1 "total_amount" amounts_NoDup H1)
      as [f Ef]; [compute_done | assumption |].
    rewrite Ef in Hs, Tt. unfold status_label in Hs.
    rewrite (truthy_float_not_zero _ Tt) in Hs.
    destruct (py_lt _ _) as [[]|]; discriminate.
Qed.

(** C2 (as stated, refuted at a concrete record).  The subtotal ["abc"] is
    rejected by [float()].  The field is not set to null: it keeps the raw
    string.  The rest is not processed either: the total ["100"], which
    [float()] accepts, stays a string, and no status is written. *)
Lemma failed_coercion_is_not_nulled :
  let d : gmap string pyval :=
    {[ "subtotal_amount"%string := PStr "abc";
       "total_amount"%string := PStr "100" ]} in
  let out := (validate_invoice_data d).1 in
  py_float (PStr "abc") = Raise ValueError /\
  is_null (out !! "subtotal_amount"%string) = false /\
  out !! "subtotal_amount"%string = Some (PStr "abc") /\
  coercible_value (PStr "100") = true /\
  out !! "total_amount"%string = Some (PStr "100") /\
  out !! "payment_status"%string = None.
Proof. vm_compute. repeat split; reflexivity. Qed.

(** C2 (amended).  Validation never raises: it is a total function that
    returns the record.  When the value of an amount is rejected by
    [float()], and the amounts before it in the fixed order are coercible,
    exactly one warning is logged, carrying the exception; the amounts
    before it hold their floats; and every other entry, the rejected amount,
    the amounts after it and [payment_status] included, is as it was in the
    input. *)
Theorem coercion_failure_stops_validation
    (pre : list string) (k : string) (post : list string)
    (d : gmap string pyval) (e : exn) :
  amounts = pre ++ k :: post ->
  forallb (fun k' => coercible_value (dict_get d k')) pre = true ->
  truthy (dict_get d k) = true ->
  py_float (dict_get d k) = Raise e ->
  let out := (validate_invoice_data d).1 in
  (validate_invoice_data d).2 = [LogWarning e] /\
  (forall k', k' ∈ pre ->
     if truthy (dict_get d k')
     then exists f, py_float (dict_get d k') = Ok f /\
                    out !! k' = Some (PFloat f)
     else out !! k' = d !! k') /\
  (forall k', k' ∉ pre -> out !! k' = d !! k').
Proof.
  intros Ha Hpre Ht Hf out.
  assert (Hnd : NoDup (pre ++ k :: post))
    by (rewrite <- Ha; apply amounts_NoDup).
  assert (Hpre' : forall k', k' ∈ pre ->
                    coercible_value (dict_get d k') = true).
  { intros k' Hk'. rewrite forallb_forall in Hpre. apply Hpre.
    now apply list_elem_of_In. }
  destruct (loop_first_failure pre k post d e Hnd Hpre' Ht Hf)
    as (d' & Hok & Hfail).
  assert (Hv : validate_invoice_data d = (d', [LogWarning e])).
  { unfold validate_invoice_data.
    now rewrite validate_body_unfold, Ha, Hfail. }
  subst out. rewrite Hv. simpl. split; [reflexivity|].
  apply NoDup_app in Hnd as (Hnd1 & _ & _). split.
  - intros k' Hk'. exact (loop_ok_lookup _ _ _ Hnd1 Hok k' Hk').
  - intros k' Hk'. exact (loop_frame _ _ _ _ Hok k' Hk').
Qed.

Lemma coercion_failure_stops_validation_witness :
  let d : gmap string pyval :=
    {[ "subtotal_amount"%string := PStr "12.5";
       "tax_amount"%string := PStr "abc";
       "total_amount"%string := PStr "100";
       "payment_status"%string := PStr "paid" ]} in
  let pre := ["subtotal_amount"%string] in
  let out := (validate_invoice_data d).1 in
  (validate_invoice_data d).2 = [LogWarning ValueError] /\
  (forall k', k' ∈ pre ->
     if truthy (dict_get d k')
     then exists f, py_float (dict_get d k') = Ok f /\
                    out !! k' = Some (PFloat f)
     else out !! k' = d !! k') /\
  (forall k', k' ∉ pre -> out !! k' = d !! k').
Proof.
  apply (coercion_failure_stops_validation
           ["subtotal_amount"%string] "tax_amount"
           ["discount_amount"; "total_amount"; "amount_due"]%string
           _ ValueError); reflexivity.
Defined.

(** A total in fullwidth digits is coerced and the status is written; a
    total after a file separator is rejected, so that a warning is logged and
    the status of the input is kept. *)
Example validation_beyond_ascii :
  let ok : gmap string pyval :=
    {[ "total_amount"%string := PStr Demo.fullwidth_100 ]} in
  let bad : gmap string pyval :=
    {[ "total_amount"%string := PStr Demo.separator_5;
       "payment_status"%string := PStr "overdue" ]} in
  (validate_invoice_data ok).1 !! "total_amount"%string
    = Some (PFloat (S754_finite false 7036874417766400 (-46))) /\
  (validate_invoice_data ok).1 !! "payment_status"%string
    = Some (PStr "unpaid") /\
  (validate_invoice_data ok).2 = [] /\
  coercible bad = false /\
  (validate_invoice_data bad).1 !! "total_amount"%string
    = Some (PStr Demo.separator_5) /\
  (validate_invoice_data bad).1 !! "payment_status"%string
    = Some (PStr "overdue") /\
  (validate_invoice_data bad).2 = [LogWarning ValueError].
Proof. vm_compute. repeat split; reflexivity. Qed.

(** C3 (as stated, refuted at a concrete record).  The total ["abc"] is
    rejected, validation stops before the status is written, and the status
    supplied in the input is still in the output. *)
Lemma upstream_status_survives_failed_coercion :
  let d : gmap string pyval :=
    {[ "total_amount"%string := PStr "abc";
       "payment_status"%string := PStr "overdue" ]} in
  (validate_invoice_data d).1 !! "payment_status"%string
  = Some (PStr "overdue").
Proof. vm_compute. reflexivity. Qed.

(** C3 (amended).  On a record whose amounts are all coercible, the status
    of the output is one of the three labels, it is the same whatever status
    the input carried, and it is the label that the rule of the specification
    gives for the [amount_due] and [total_amount] of the output, wherever
    that rule names one and the output does not hold a zero amount due next
    to a total that is not zero; on such an output the rule says ["paid"]
    and the status written is ["unpaid"].  On any other record the status
    entry is left as it was in the input. *)
Theorem payment_status_after_validation (d : gmap string pyval) :
  let out := (validate_invoice_data d).1 in
  if coercible d
  then exists s,
         out !! "payment_status"%string = Some (PStr s) /\
         (s = "paid" \/ s = "partial" \/ s = "unpaid")%string /\
         (forall v,
            (validate_invoice_data (<["payment_status"%string := v]> d)).1
              !! "payment_status"%string = Some (PStr s)) /\
         (forall l, resolved_status out = Some l ->
                    if zero_due_of_nonzero_total out
                    then l = "paid"%string /\ s = "unpaid"%string
                    else s = l)
  else out !! "payment_status"%string = d !! "payment_status"%string.
Proof.
  intros out. subst out. destruct (coercible d) eqn:Hc.
  - destruct (coercible_loop d Hc) as [d1 H1].
    destruct (derived_status_defined d d1 H1) as (s & Hs & Hlabel).
    assert (Hv : forall d0 d0',
               for_each amounts coerce_amount d0 = (Ok tt, d0') ->
               derived_status d0' = Ok s ->
               validate_invoice_data d0 =
                 (<["payment_status"%string := PStr s]> d0', [])).
    { intros d0 d0' E0 E1. unfold validate_invoice_data.
      now rewrite validate_body_unfold, E0, E1. }
    exists s. rewrite (Hv _ _ H1 Hs). simpl fst.
    rewrite lookup_insert_eq.
    split; [reflexivity|]. split; [assumption|]. split.
    + intros v.
      rewrite (Hv (<["payment_status"%string := v]> d)
                  (<["payment_status"%string := v]> d1)).
      * simpl fst. apply lookup_insert_eq.
      * apply loop_insert_other; [compute_done | assumption].
      * now rewrite derived_status_insert_status.
    + intros l Hl.
      rewrite resolved_status_insert_status in Hl.
      rewrite zero_due_insert_status.
      destruct (zero_due_of_nonzero_total d1) eqn:Hz.
      * exact (chain_departs_from_rule d d1 s l H1 Hs Hl Hz).
      * exact (chain_follows_rule d d1 s l H1 Hs Hl Hz).
  - destruct (validate_not_coercible d Hc) as (e & d1 & H1 & Hv).
    rewrite Hv. simpl fst. eapply loop_frame; [eassumption | compute_done].
Qed.

(** The rule and the code at the four examples of the specification: they
    agree at 100/40, 100/100 and 0/0; at a total of 100 and an amount due
    of 0 the rule says ["paid"] and the code writes ["unpaid"]. *)
Example rule_and_code_at_the_examples :
  let run (total due : Z) :=
    (validate_invoice_data
       {[ "total_amount"%string := PInt total;
          "amount_due"%string := PInt due ]}).1 in
  let both (total due : Z) :=
    (resolved_status (run total due),
     run total due !! "payment_status"%string) in
  both 100 40 = (Some "partial"%string, Some (PStr "partial")) /\
  both 100 100 = (Some "unpaid"%string, Some (PStr "unpaid")) /\
  both 0 0 = (Some "paid"%string, Some (PStr "paid")) /\
  both 100 0 = (Some "paid"%string, Some (PStr "unpaid")) /\
  zero_due_of_nonzero_total (run 100 0) = true.
Proof. vm_compute. repeat split; reflexivity. Qed.

(** C4 (as stated, refuted at a concrete record).  For the raw record
    [{"total_amount": 50}] the status is ["unpaid"], but the output has no
    [amount_due] entry at all: the default is a local variable of the
    function and is never stored. *)
Lemma missing_amount_due_is_not_stored :
  let d : gmap string pyval := {[ "total_amount"%string := PInt 50 ]} in
  let out := (validate_invoice_data d).1 in
  py_float (PInt 50) = Ok (S754_finite false 7036874417766400 (-47)) /\
  out !! "total_amount"%string
    = Some (PFloat (S754_finite false 7036874417766400 (-47))) /\
  out !! "amount_due"%string = None /\
  out !! "payment_status"%string = Some (PStr "unpaid").
Proof. vm_compute. repeat split; reflexivity. Qed.

(** C4 (amended).  When [amount_due] is missing or [None], the output's
    [amount_due] entry is as in the input (still missing or [None]).  If
    every amount is coercible, [total_amount] holds the float of the total
    when the raw total is truthy and is as in the input otherwise, and the
    total stands in for the amount due when the status is derived:
    ["unpaid"] when the total of the output is not zero, ["paid"] when it
    is zero, missing or [None].  If some amount is not coercible, the total
    and the status are as in the input. *)
Theorem missing_amount_due_defaults_for_status_only
    (d : gmap string pyval) :
  is_null (d !! "amount_due"%string) = true ->
  let out := (validate_invoice_data d).1 in
  out !! "amount_due"%string = d !! "amount_due"%string /\
  is_null (out !! "amount_due"%string) = true /\
  if coercible d
  then (if truthy (dict_get d "total_amount")
        then exists t, py_float (dict_get d "total_amount") = Ok t /\
                       out !! "total_amount"%string = Some (PFloat t)
        else out !! "total_amount"%string = d !! "total_amount"%string) /\
       out !! "payment_status"%string =
         Some (PStr (if truthy (dict_get out "total_amount")
                     then "unpaid" else "paid"))
  else out !! "total_amount"%string = d !! "total_amount"%string /\
       out !! "payment_status"%string = d !! "payment_status"%string.
Proof.
  intros Hnull out.
  assert (Hdue : truthy (dict_get d "amount_due") = false).
  { unfold dict_get. destruct (d !! "amount_due"%string) as [[]|];
      simpl in Hnull |- *; congruence. }
  subst out. destruct (coercible d) eqn:Hc.
  - destruct (validate_coercible d Hc) as (d1 & s & H1 & Hs & Hv).
    rewrite Hv. simpl fst.
    pose proof (loop_ok_lookup _ _ _ amounts_NoDup H1 "amount_due"
                  ltac:(compute_done)) as Ldue.
    pose proof (loop_ok_lookup _ _ _ amounts_NoDup H1 "total_amount"
                  ltac:(compute_done)) as Ltot.
    rewrite Hdue in Ldue.
    rewrite dict_get_insert_ne by discriminate.
    rewrite !lookup_insert_ne by discriminate. rewrite lookup_insert_eq.
    split; [assumption|]. split; [now rewrite Ldue|]. split; [exact Ltot|].
    do 2 f_equal. apply (falsy_due_label d d1 s H1 Hs).
    unfold dict_get in *. now rewrite Ldue.
  - destruct (validate_not_coercible d Hc) as (e & d1 & H1 & Hv).
    rewrite Hv. simpl fst.
    assert (Ldue : d1 !! "amount_due"%string = d !! "amount_due"%string).
    { destruct (loop_lookup _ _ _ _ amounts_NoDup H1 "amount_due"
                  ltac:(compute_done)) as [L|[L _]]; [assumption|congruence]. }
    split; [assumption|]. split; [now rewrite Ldue|].
    split; [|eapply loop_frame; [eassumption | compute_done]].
    destruct (loop_raise_at _ _ _ _ H1)
      as (pre & k0 & post & Ha & Hp & Ht & _).
    apply (loop_frame _ _ _ _ Hp). apply (total_not_before pre k0 post Ha).
    intros ->. unfold dict_get in Ht, Hdue. rewrite Ldue in Ht. congruence.
Qed.

Lemma missing_amount_due_defaults_for_status_only_witness :
  let d : gmap string pyval := {[ "total_amount"%string := PInt 50 ]} in
  let out := (validate_invoice_data d).1 in
  out !! "amount_due"%string = d !! "amount_due"%string /\
  is_null (out !! "amount_due"%string) = true /\
  if coercible d
  then (if truthy (dict_get d "total_amount")
        then exists t, py_float (dict_get d "total_amount") = Ok t /\
                       out !! "total_amount"%string = Some (PFloat t)
        else out !! "total_amount"%string = d !! "total_amount"%string) /\
       out !! "payment_status"%string =
         Some (PStr (if truthy (dict_get out "total_amount")
                     then "unpaid" else "paid"))
  else out !! "total_amount"%string = d !! "total_amount"%string /\
       out !! "payment_status"%string = d !! "payment_status"%string.
Proof.
  apply (missing_amount_due_defaults_for_status_only
           {[ "total_amount"%string := PInt 50 ]}); reflexivity.
Defined.

(** A total of zero is left as the integer it was, no [amount_due] entry is
    added, and the status is ["paid"]. *)
Example missing_amount_due_with_zero_total :
  let d : gmap string pyval := {[ "total_amount"%string := PInt 0 ]} in
  let out := (validate_invoice_data d).1 in
  out !! "total_amount"%string = Some (PInt 0) /\
  out !! "amount_due"%string = None /\
  out !! "payment_status"%string = Some (PStr "paid").
Proof. vm_compute. repeat split; reflexivity. Qed.

(** With a subtotal that [float()] rejects, the total stays the integer it
    was and no status is written. *)
Example missing_amount_due_after_rejected_subtotal :
  let d : gmap string pyval :=
    {[ "subtotal_amount"%string := PStr "abc";
       "total_amount"%string := PInt 50 ]} in
  let out := (validate_invoice_data d).1 in
  coercible d = false /\
  out !! "total_amount"%string = Some (PInt 50) /\
  out !! "amount_due"%string = None /\
  out !! "payment_status"%string = None.
Proof. vm_compute. repeat split; reflexivity. Qed.

(** C6 (as stated, refuted at a concrete record).  [float()] accepts a
    negative numeric string and the string ["inf"]; the floats are stored as
    they come, so the total ends up negative and the amount due infinite. *)
Lemma negative_and_infinite_amounts_are_stored :
  let d : gmap string pyval :=
    {[ "total_amount"%string := PStr "-5";
       "amount_due"%string := PStr "inf" ]} in
  let out := (validate_invoice_data d).1 in
  out !! "total_amount"%string
    = Some (PFloat (S754_finite true 5629499534213120 (-50))) /\
  finite_nonneg (S754_finite true 5629499534213120 (-50)) = false /\
  out !! "amount_due"%string = Some (PFloat (S754_infinity false)) /\
  finite_nonneg (S754_infinity false) = false.
Proof. vm_compute. repeat split; reflexivity. Qed.

(** C6 (amended).  After validation each of the five amounts is either
    exactly as in the input, or the float that [float()] returns for its
    truthy raw value, whatever its sign and whether or not it is finite.
    A falsy raw value (missing, [None], zero, empty) is always left as it
    is; so is every amount at or after the first one that [float()]
    rejects; and on a record whose amounts are all coercible every truthy
    one has become its float. *)
Theorem amount_after_validation (d : gmap string pyval) (k : string) :
  k ∈ amounts ->
  let out := (validate_invoice_data d).1 in
  (out !! k = d !! k \/
   (truthy (dict_get d k) = true /\
    exists f, py_float (dict_get d k) = Ok f /\ out !! k = Some (PFloat f)))
  /\ (truthy (dict_get d k) = false -> out !! k = d !! k)
  /\ (forall pre k0 post e,
        amounts = pre ++ k0 :: post ->
        forallb (fun k' => coercible_value (dict_get d k')) pre = true ->
        truthy (dict_get d k0) = true ->
        py_float (dict_get d k0) = Raise e ->
        k ∈ k0 :: post -> out !! k = d !! k)
  /\ (coercible d = true -> truthy (dict_get d k) = true ->
      exists f, py_float (dict_get d k) = Ok f /\ out !! k = Some (PFloat f)).
Proof.
  intros Hk out.
  assert (Hps : k ≠ "payment_status"%string).
  { intros ->. revert Hk. compute_done. }
  assert (Hout : exists r d1,
             for_each amounts coerce_amount d = (r, d1) /\ out !! k = d1 !! k
             /\ (coercible d = true -> r = Ok tt)).
  { subst out. destruct (coercible d) eqn:Hc.
    - destruct (validate_coercible d Hc) as (d1 & s & H1 & _ & Hv).
      exists (Ok tt), d1. rewrite Hv. simpl fst.
      now rewrite lookup_insert_ne by congruence.
    - destruct (validate_not_coercible d Hc) as (e & d1 & H1 & Hv).
      exists (Raise e), d1. rewrite Hv. simpl fst.
      repeat split; [assumption | discriminate]. }
  destruct Hout as (r & d1 & H1 & -> & Hr).
  pose proof (loop_lookup _ _ _ _ amounts_NoDup H1 k Hk) as L.
  split; [exact L|]. split; [|split].
  - intros Hf. destruct L as [L|[L _]]; [assumption | congruence].
  - intros pre k0 post e Ha Hpre Ht Hf Hin.
    assert (Hnd : NoDup (pre ++ k0 :: post))
      by (rewrite <- Ha; apply amounts_NoDup).
    assert (Hpre' : forall k', k' ∈ pre ->
                      coercible_value (dict_get d k') = true).
    { intros k' Hk'. rewrite forallb_forall in Hpre. apply Hpre.
      now apply list_elem_of_In. }
    destruct (loop_first_failure pre k0 post d e Hnd Hpre' Ht Hf)
      as (d' & Hok & Hfail).
    rewrite Ha, Hfail in H1. injection H1 as _ <-.
    apply NoDup_app in Hnd as (_ & Hdisj & _).
    apply (loop_frame _ _ _ _ Hok). intros Hin'. exact (Hdisj k Hin' Hin).
  - intros Hc Ht. rewrite (Hr Hc) in H1.
    pose proof (loop_ok_lookup _ _ _ amounts_NoDup H1 k Hk) as L'.
    now rewrite Ht in L'.
Qed.

Lemma amount_after_validation_witness :
  let d : gmap string pyval :=
    {[ "total_amount"%string := PStr "-5";
       "amount_due"%string := PStr "inf" ]} in
  let k := "total_amount"%string in
  let out := (validate_invoice_data d).1 in
  (out !! k = d !! k \/
   (truthy (dict_get d k) = true /\
    exists f, py_float (dict_get d k) = Ok f /\ out !! k = Some (PFloat f)))
  /\ (truthy (dict_get d k) = false -> out !! k = d !! k)
  /\ (forall pre k0 post e,
        amounts = pre ++ k0 :: post ->
        forallb (fun k' => coercible_value (dict_get d k')) pre = true ->
        truthy (dict_get d k0) = true ->
        py_float (dict_get d k0) = Raise e ->
        k ∈ k0 :: post -> out !! k = d !! k)
  /\ (coercible d = true -> truthy (dict_get d k) = true ->
      exists f, py_float (dict_get d k) = Ok f /\ out !! k = Some (PFloat f)).
Proof.
  apply (amount_after_validation
           {[ "total_amount"%string := PStr "-5";
              "amount_due"%string := PStr "inf" ]} "total_amount").
  compute_done.
Defined.

(** The tax ["abc"] is rejected: the subtotal before it has become a float,
    the tax and the total after it are the strings they were. *)
Example amounts_after_a_rejected_tax :
  let d : gmap string pyval :=
    {[ "subtotal_amount"%string := PStr "12.5";
       "tax_amount"%string := PStr "abc";
       "total_amount"%string := PStr "100" ]} in
  let out := (validate_invoice_data d).1 in
  out !! "subtotal_amount"%string
    = Some (PFloat (S754_finite false 7036874417766400 (-49))) /\
  out !! "tax_amount"%string = Some (PStr "abc") /\
  out !! "total_amount"%string = Some (PStr "100").
Proof. vm_compute. repeat split; reflexivity. Qed.

(** Validating the record that validation returned gives the same record
    and the same log again. *)
Lemma validate_twice (d : gmap string pyval) :
  validate_invoice_data (validate_invoice_data d).1 = validate_invoice_data d.
Proof.
  pose proof (validate_body_unfold d) as Hb.
  destruct (for_each amounts coerce_amount d) as [[[]|e] d1] eqn:H1.
  - pose proof (loop_idempotent _ _ _ _ amounts_NoDup H1) as H2.
    destruct (derived_status d1) as [s|e] eqn:Hs.
    + assert (Hv : validate_invoice_data d
                   = (<["payment_status"%string := PStr s]> d1, []))
        by (unfold validate_invoice_data; now rewrite Hb).
      rewrite Hv. simpl fst. unfold validate_invoice_data.
      rewrite validate_body_unfold.
      rewrite (loop_insert_other amounts "payment_status" (PStr s)
                 d1 (Ok tt) d1 ltac:(compute_done) H2).
      rewrite derived_status_insert_status, Hs.
      now rewrite insert_insert_eq.
    + assert (Hv : validate_invoice_data d = (d1, [LogWarning e]))
        by (unfold validate_invoice_data; now rewrite Hb).
      rewrite Hv. simpl fst. unfold validate_invoice_data.
      now rewrite validate_body_unfold, H2, Hs.
  - pose proof (loop_idempotent _ _ _ _ amounts_NoDup H1) as H2.
    assert (Hv : validate_invoice_data d = (d1, [LogWarning e]))
      by (unfold validate_invoice_data; now rewrite Hb).
    rewrite Hv. simpl fst. unfold validate_invoice_data.
    now rewrite validate_body_unfold, H2.
Qed.

(** C7 (as stated, refuted at a concrete record).  The step is not free of
    side effects.  The body of the function runs on the dictionary of the
    caller: where the caller had put the string ["12.5"], that dictionary
    holds a float after the call, the same dictionary is what the function
    returns, and a warning has been logged for the total that [float()]
    rejects. *)
Lemma validation_updates_its_argument_and_logs :
  let d : gmap string pyval :=
    {[ "subtotal_amount"%string := PStr "12.5";
       "total_amount"%string := PStr "abc" ]} in
  d !! "subtotal_amount"%string = Some (PStr "12.5") /\
  (validate_body d).2 !! "subtotal_amount"%string
    = Some (PFloat (S754_finite false 7036874417766400 (-49))) /\
  (validate_invoice_data d).1 !! "subtotal_amount"%string
    = Some (PFloat (S754_finite false 7036874417766400 (-49))) /\
  (validate_invoice_data d).2 = [LogWarning ValueError].
Proof. vm_compute. repeat split; reflexivity. Qed.

(** C7 (amended).  Validation is idempotent: validating the record that
    validation returned gives that same record again, with the same status,
    and logs what the first run logged. *)
Theorem validate_idempotent (d : gmap string pyval) :
  validate_invoice_data (validate_invoice_data d).1 = validate_invoice_data d
  /\ (validate_invoice_data (validate_invoice_data d).1).1
       !! "payment_status"%string
     = (validate_invoice_data d).1 !! "payment_status"%string
  /\ (validate_invoice_data (validate_invoice_data d).1).2
     = (validate_invoice_data d).2.
Proof.
  pose proof (validate_twice d) as Hidem.
  split; [exact Hidem|]. now rewrite Hidem.
Qed.

(** C10.  Validation writes only to the five amounts and to
    [payment_status]: every other key maps to the value it had; no key is
    removed; and no key is added except [payment_status]. *)
Theorem validate_frame (d : gmap string pyval) :
  let out := (validate_invoice_data d).1 in
  (forall k, k ∉ amounts -> k ≠ "payment_status"%string ->
             out !! k = d !! k) /\
  dom d ⊆ dom out /\
  dom out ⊆ dom d ∪ {[ "payment_status"%string ]}.
Proof.
  intros out. subst out. destruct (coercible d) eqn:Hc.
  - destruct (validate_coercible d Hc) as (d1 & s & H1 & _ & Hv).
    rewrite Hv. simpl fst. rewrite dom_insert_L, (loop_dom _ _ _ _ H1).
    split;
      [|split; [apply union_subseteq_r
               |apply union_least;
                  [apply union_subseteq_r | apply union_subseteq_l]]].
    intros k Hk Hps.
    rewrite lookup_insert_ne by congruence.
    exact (loop_frame _ _ _ _ H1 k Hk).
  - destruct (validate_not_coercible d Hc) as (e & d1 & H1 & Hv).
    rewrite Hv. simpl fst. rewrite (loop_dom _ _ _ _ H1).
    split; [|split; [reflexivity | apply union_subseteq_l]].
    intros k Hk _.
    exact (loop_frame _ _ _ _ H1 k Hk).
Qed.

(** ** Searching and slicing *)

Lemma append_cons (x : ascii) (a b : string) :
  String x a +:+ b = String x (a +:+ b).
Proof. reflexivity. Qed.

Lemma append_nil (b : string) : EmptyString +:+ b = b.
Proof. reflexivity. Qed.

Lemma length_append (a b : string) :
  String.length (a +:+ b) = (String.length a + String.length b)%nat.
Proof. induction a as [|c a IH]; simpl; [reflexivity | now rewrite IH]. Qed.

Lemma find_from_absent c s i : occurs c s = false -> find_from c s i = -1.
Proof.
  revert i. induction s as [|a s IH]; intros i H; simpl in *; [reflexivity|].
  apply orb_false_iff in H as [-> H]. now apply IH.
Qed.

Lemma find_from_first c pre rest i :
  occurs c pre = false ->
  find_from c (pre +:+ String c rest) i = i + Z.of_nat (String.length pre).
Proof.
  revert i. induction pre as [|a pre IH]; intros i H; simpl in *.
  - rewrite Ascii.eqb_refl. lia.
  - apply orb_false_iff in H as [-> H]. rewrite IH by assumption. lia.
Qed.

Lemma rfind_from_absent c s i last :
  occurs c s = false -> rfind_from c s i last = last.
Proof.
  revert i last. induction s as [|a s IH]; intros i last H; simpl in *;
    [reflexivity|].
  apply orb_false_iff in H as [-> H]. now apply IH.
Qed.

Lemma rfind_from_last c pre post i last :
  occurs c post = false ->
  rfind_from c (pre +:+ String c post) i last
  = i + Z.of_nat (String.length pre).
Proof.
  revert i last. induction pre as [|a pre IH]; intros i last H; simpl.
  - rewrite Ascii.eqb_refl, rfind_from_absent by assumption. lia.
  - rewrite IH by assumption. lia.
Qed.

Lemma find_nonneg_or_absent c s i :
  0 <= i -> find_from c s i = -1 \/ i <= find_from c s i.
Proof.
  revert i. induction s as [|a s IH]; intros i Hi; simpl; [now left|].
  destruct (Ascii.eqb a c); [right; lia|].
  destruct (IH (i + 1)) as [E|E]; [lia | now left | right; lia].
Qed.

Lemma substring_skip (pre s : string) (n : nat) :
  substring (String.length pre) n (pre +:+ s) = substring 0 n s.
Proof. induction pre as [|a pre IH]; simpl; [reflexivity | exact IH]. Qed.

Lemma substring_prefix (a b : string) :
  substring 0 (String.length a) (a +:+ b) = a.
Proof.
  induction a as [|c a IH]; simpl.
  - now destruct b.
  - now rewrite IH.
Qed.

Lemma substring_zero (s : string) (m : nat) : substring m 0 s = EmptyString.
Proof.
  revert m. induction s as [|c s IH]; intros [|m]; simpl; auto.
Qed.

Lemma append_assoc (a b c : string) : (a +:+ b) +:+ c = a +:+ (b +:+ c).
Proof.
  induction a as [|x a IH]; [reflexivity|].
  now rewrite !append_cons, IH.
Qed.

(** The three cases of the boundary extraction, by the shape of the
    response. *)
Lemma json_boundary_no_open (s : string) :
  occurs "{"%char s = false -> json_boundary s = s.
Proof.
  intros H. unfold json_boundary, find. now rewrite find_from_absent.
Qed.

Lemma slice_middle (a b c : string) :
  slice (a +:+ b +:+ c) (Z.of_nat (String.length a))
        (Z.of_nat (String.length a + String.length b)) = b.
Proof.
  unfold slice, clamp_index. rewrite !length_append.
  repeat match goal with
         | |- context [Z.of_nat ?n <? 0] =>
             replace (Z.of_nat n <? 0) with false
               by (symmetry; apply Z.ltb_ge; lia)
         end.
  rewrite !Z.min_l by lia.
  replace (Z.to_nat (Z.of_nat (String.length a))) with (String.length a)
    by lia.
  replace (Z.to_nat (Z.of_nat (String.length a + String.length b)
                     - Z.of_nat (String.length a)))
    with (String.length b) by lia.
  rewrite substring_skip. apply substring_prefix.
Qed.

Lemma json_boundary_span (pre mid post : string) :
  occurs "{"%char pre = false ->
  occurs "}"%char post = false ->
  json_boundary (pre +:+ String "{"%char (mid +:+ String "}"%char post))
  = String "{"%char (mid +:+ String "}"%char "").
Proof.
  intros Hpre Hpost. unfold json_boundary, find, rfind.
  rewrite find_from_first by assumption.
  replace (pre +:+ String "{"%char (mid +:+ String "}"%char post))
    with ((pre +:+ String "{"%char mid) +:+ String "}"%char post)
    by (now rewrite append_assoc, append_cons).
  rewrite rfind_from_last by assumption.
  replace (0 + Z.of_nat (String.length pre) =? -1) with false
    by (symmetry; apply Z.eqb_neq; lia).
  simpl negb. cbv iota.
  replace ((pre +:+ String "{"%char mid) +:+ String "}"%char post)
    with (pre +:+ String "{"%char (mid +:+ String "}"%char "") +:+ post).
  2:{ rewrite !append_cons, !append_assoc, append_cons.
      now rewrite append_cons, append_nil. }
  replace (0 + Z.of_nat (String.length pre))
    with (Z.of_nat (String.length pre)) by lia.
  replace (0 + Z.of_nat (String.length (pre +:+ String "{"%char mid)) + 1)
    with (Z.of_nat (String.length pre
                    + String.length
                        (String "{"%char (mid +:+ String "}"%char "")))).
  2:{ rewrite length_append. simpl String.length. rewrite length_append.
      simpl String.length. lia. }
  apply slice_middle.
Qed.

(** With an opening brace and no closing brace after it, the slice is
    empty. *)
Lemma rfind_from_bound c s i last :
  last < i -> rfind_from c s i last < i + Z.of_nat (String.length s).
Proof.
  revert i last. induction s as [|a s IH]; intros i last H; simpl.
  - lia.
  - destruct (Ascii.eqb a c).
    + specialize (IH (i + 1) i). lia.
    + specialize (IH (i + 1) last). lia.
Qed.

Lemma json_boundary_no_close_after (pre post : string) :
  occurs "{"%char pre = false ->
  occurs "}"%char post = false ->
  json_boundary (pre +:+ String "{"%char post) = EmptyString.
Proof.
  intros Hpre Hpost. unfold json_boundary, find.
  rewrite find_from_first by assumption.
  replace (0 + Z.of_nat (String.length pre) =? -1) with false
    by (symmetry; apply Z.eqb_neq; lia).
  simpl negb. cbv iota.
  assert (Hr : -1 <= rfind "}"%char (pre +:+ String "{"%char post)
               < Z.of_nat (String.length pre)).
  { unfold rfind.
    assert (G : forall s1 s2 i last,
              occurs "}"%char s2 = false ->
              rfind_from "}"%char (s1 +:+ s2) i last
              = rfind_from "}"%char s1 i last).
    { induction s1 as [|a s1 IH]; intros s2 i last H2.
      - rewrite append_nil. now apply rfind_from_absent.
      - rewrite append_cons. simpl. now apply IH. }
    rewrite G by (simpl; now rewrite Hpost).
    split.
    - assert (L : forall s i last, -1 <= last -> 0 <= i ->
                    -1 <= rfind_from "}"%char s i last).
      { induction s as [|a s IH]; intros i last Hl Hi; simpl; [lia|].
        destruct (Ascii.eqb a "}"%char); apply IH; lia. }
      apply L; lia.
    - pose proof (rfind_from_bound "}"%char pre 0 (-1)). lia. }
  set (s := pre +:+ String "{"%char post) in *.
  unfold slice, clamp_index.
  assert (Hlen : Z.of_nat (String.length pre) <= Z.of_nat (String.length s)).
  { subst s. rewrite length_append. lia. }
  replace (0 + Z.of_nat (String.length pre) <? 0) with false
    by (symmetry; apply Z.ltb_ge; lia).
  replace (rfind "}"%char s + 1 <? 0) with false
    by (symmetry; apply Z.ltb_ge; lia).
  match goal with
  | |- substring _ ?n _ = _ => replace n with 0%nat by lia
  end.
  apply substring_zero.
Qed.

Lemma split_first c s :
  occurs c s = true ->
  exists pre rest, s = pre +:+ String c rest /\ occurs c pre = false.
Proof.
  induction s as [|a s IH]; simpl; [discriminate|].
  destruct (Ascii.eqb a c) eqn:E; simpl; intros H.
  - apply Ascii.eqb_eq in E as ->. now exists EmptyString, s.
  - destruct (IH H) as (pre & rest & -> & Hp).
    exists (String a pre), rest. simpl. now rewrite E.
Qed.

Lemma split_last c s :
  occurs c s = true ->
  exists pre post, s = pre +:+ String c post /\ occurs c post = false.
Proof.
  induction s as [|a s IH]; simpl; [discriminate|].
  destruct (occurs c s) eqn:O.
  - intros _. destruct (IH eq_refl) as (pre & post & -> & Hp).
    now exists (String a pre), post.
  - rewrite orb_false_r. intros E. apply Ascii.eqb_eq in E as ->.
    now exists EmptyString, s.
Qed.

(** C8 (as stated, refuted at a concrete response).  The response ["} {"]
    contains both braces, the first opening one at index 2 and the last
    closing one at index 0.  The slice [s[2:1]] is empty: the result is not
    a text that runs from an opening brace through a closing one. *)
Lemma boundary_of_reversed_braces_is_empty :
  let s := "} {"%string in
  occurs "{"%char s = true /\ occurs "}"%char s = true /\
  find "{"%char s = 2 /\ rfind "}"%char s = 0 /\
  json_boundary s = EmptyString /\
  ~ braced (json_boundary s).
Proof.
  repeat split; try reflexivity.
  intros [mid H]. vm_compute in H. discriminate.
Qed.

(** C8 (amended).  A response without an opening brace is used unchanged.
    Otherwise cut the response at its first opening brace; when a closing
    brace follows, the result is the text from that first opening brace
    through the last closing brace, both included; when none follows
    (the response has no closing brace, or only before the first opening
    one), the result is the empty string. *)
Theorem json_boundary_cases (s : string) :
  if occurs "{"%char s
  then exists pre rest,
         s = pre +:+ String "{"%char rest /\ occurs "{"%char pre = false /\
         if occurs "}"%char rest
         then exists mid post,
                rest = mid +:+ String "}"%char post /\
                occurs "}"%char post = false /\
                json_boundary s = String "{"%char (mid +:+ String "}"%char "")
         else json_boundary s = EmptyString
  else json_boundary s = s.
Proof.
  destruct (occurs "{"%char s) eqn:Ho.
  - destruct (split_first _ _ Ho) as (pre & rest & -> & Hpre).
    exists pre, rest. repeat split; try assumption.
    destruct (occurs "}"%char rest) eqn:Hc.
    + destruct (split_last _ _ Hc) as (mid & post & -> & Hpost).
      exists mid, post. repeat split; try assumption.
      now apply json_boundary_span.
    + now apply json_boundary_no_close_after.
  - now apply json_boundary_no_open.
Qed.

Example json_boundary_of_chatty_answer :
  json_boundary "Sure! {a: {b: 1}} Anything else? }:-{ no"
  = "{a: {b: 1}} Anything else? }"%string.
Proof. reflexivity. Qed.

(** ** The batch loop *)

Section PipelineFacts.
Context {S : Services}.

(** One iteration appends the file's record, if it has one, and nothing
    else; what the state held before does not matter. *)
Lemma process_file_data n st i file :
  data (process_file n st i file) = data st ++ rows_of file /\
  processed_files (process_file n st i file)
  = (processed_files st + length (rows_of file))%nat.
Proof.
  unfold process_file, rows_of, record_of, handler.
  destruct (read_pdf file) as [pdf_text|msg]; simpl;
    [|now rewrite app_nil_r, Nat.add_0_r].
  destruct (extract_invoice_data pdf_text) as [extracted_json evs]. simpl.
  destruct (json_loads extracted_json) as [obj|msg]; simpl;
    [|now rewrite app_nil_r, Nat.add_0_r].
  destruct obj as [|b|z|f|s|l|d]; simpl;
    try (now rewrite app_nil_r, Nat.add_0_r).
  - destruct (index 0 "error" s); simpl; now rewrite app_nil_r, Nat.add_0_r.
  - destruct (existsb _ l); simpl; now rewrite app_nil_r, Nat.add_0_r.
  - destruct (d !! "error"%string) as [err|] eqn:E.
    + rewrite bool_decide_eq_true_2 by eauto. simpl.
      now rewrite app_nil_r, Nat.add_0_r.
    + rewrite bool_decide_eq_false_2 by (intros [? ?]; congruence).
      destruct (validate_invoice_data d) as [d' w]. simpl. split; reflexivity.
Qed.

Lemma process_from_data n files : forall st i,
  data (process_from n st i files) = data st ++ omap record_of files /\
  processed_files (process_from n st i files)
  = (processed_files st + length (omap record_of files))%nat.
Proof.
  induction files as [|file rest IH]; intros st i; simpl.
  - now rewrite app_nil_r, Nat.add_0_r.
  - destruct (IH (process_file n st i file) (i + 1)%nat) as [-> ->].
    destruct (process_file_data n st i file) as [-> ->].
    unfold rows_of. destruct (record_of file); simpl;
      change (list_omap _ _ record_of rest) with (omap record_of rest).
    + rewrite <- app_assoc. split; [reflexivity | lia].
    + rewrite app_nil_r. split; [reflexivity | lia].
Qed.

Lemma process_invoices_data files :
  data (process_invoices files) = omap record_of files /\
  processed_files (process_invoices files) = length (omap record_of files).
Proof.
  unfold process_invoices, tell. simpl.
  destruct (process_from_data (length files) files
              {| data := []; processed_files := 0; trace := [] |} 0%nat)
    as [-> ->].
  split; reflexivity.
Qed.

(** C5.  The rows of the result are the records of the files that succeed
    (text read, payload decoded to a dictionary without an error marker),
    one row per such file, in the order of the input, duplicates kept; the
    counter of processed files is their number.  A file contributes the
    same rows whatever comes before or after it: the rows for
    [before ++ file :: after] are the rows for [before], then the row of
    [file] if it succeeds, then the rows for [after]. *)
Theorem process_invoices_isolates_failures (files : list uploaded_file) :
  data (process_invoices files) = omap record_of files /\
  processed_files (process_invoices files)
  = length (data (process_invoices files)) /\
  forall before file after,
    data (process_invoices (before ++ file :: after))
    = data (process_invoices before) ++ rows_of file
      ++ data (process_invoices after).
Proof.
  destruct (process_invoices_data files) as [Hd Hn].
  rewrite Hn, Hd. repeat split.
  intros before file after.
  rewrite !(proj1 (process_invoices_data _)).
  rewrite omap_app. simpl. unfold rows_of.
  now destruct (record_of file).
Qed.

End PipelineFacts.

(** Three files, the second of which makes the call to the service fail:
    the result holds the records of the first and the third, in that
    order. *)
Example batch_of_three_with_failed_call :
  let run := @process_invoices Demo.configured
               [Demo.invoice1; Demo.invoice2; Demo.invoice3] in
  map map_to_list (data run) =
    [ [ ("source_file", PStr "a.pdf"); ("vendor_name", PStr "ACME");
        ("total_amount",
         PFloat (S754_finite false 7036874417766400 (-47)));
        ("payment_status", PStr "unpaid") ];
      [ ("source_file", PStr "c.pdf");
        ("amount_due", PFloat (S754_finite false 5629499534213120 (-47)));
        ("total_amount",
         PFloat (S754_finite false 7036874417766400 (-46)));
        ("payment_status", PStr "partial") ] ]%string /\
  processed_files run = 2%nat /\
  filter (fun ev => is_failure_report ev = true) (trace run)
  = [ApiError (PStr "API call failed: service unavailable")].
Proof. split; [|split]; vm_compute; exact eq_refl. Qed.

(** ** No client *)

Section Unconfigured.
Context {S : Services}.
Hypothesis no_client : client = None.
Hypothesis error_round_trip :
  json_loads (json_dumps (error_payload "API key not configured"))
  = Returned (error_payload "API key not configured").

Lemma extract_refused (text : string) :
  extract_invoice_data text
  = (json_dumps (error_payload "API key not configured"), [ConfigError]).
Proof. unfold extract_invoice_data. now rewrite no_client. Qed.

Lemma record_of_unconfigured (file : uploaded_file) : record_of file = None.
Proof.
  unfold record_of. destruct (read_pdf file) as [text|]; [|reflexivity].
  rewrite extract_refused. simpl fst. rewrite error_round_trip.
  unfold error_payload. now rewrite lookup_singleton_eq.
Qed.

Lemma process_file_unconfigured n st i file :
  process_file n st i file =
  match read_pdf file with
  | Returned _ =>
      tell [ApiError (PStr "API key not configured")]
        (tell [ConfigError] (tell [Processing (i + 1) n (name file)] st))
  | Failed msg =>
      handler i n file (ServiceFailure msg)
        (tell [Processing (i + 1) n (name file)] st)
  end.
Proof.
  unfold process_file. destruct (read_pdf file) as [text|msg]; [|reflexivity].
  rewrite extract_refused, error_round_trip.
  change (contains_error (error_payload "API key not configured"))
    with (Ok (bool_decide (is_Some
           (({[ "error"%string := PStr "API key not configured" ]}
               : gmap string pyval) !! "error"%string)))).
  rewrite lookup_singleton_eq, bool_decide_eq_true_2 by eauto.
  unfold error_payload, dict_get. now rewrite lookup_singleton_eq.
Qed.

Lemma process_file_unconfigured_trace n st i file :
  Forall (fun ev => is_remote_call ev = false) (trace st) ->
  Forall (fun ev => is_remote_call ev = false)
         (trace (process_file n st i file)).
Proof.
  intros Hst. rewrite process_file_unconfigured.
  destruct (read_pdf file) as [text|msg]; unfold handler, tell;
    cbn [trace]; rewrite !Forall_app; repeat split; auto.
Qed.

Lemma process_from_unconfigured_trace n files : forall st i,
  Forall (fun ev => is_remote_call ev = false) (trace st) ->
  Forall (fun ev => is_remote_call ev = false)
         (trace (process_from n st i files)).
Proof.
  induction files as [|file rest IH]; intros st i Hst; simpl;
    [assumption|].
  apply IH. now apply process_file_unconfigured_trace.
Qed.

(** C9.  With no client, [extract_invoice_data] answers every text with
    the configuration-error payload, a JSON object with the ["error"]
    key, and reports the configuration error; it neither raises nor calls
    the service.  A batch run in this mode never calls the service and
    yields no row, whatever the files. *)
Theorem unconfigured_client_refuses_every_call
    (text : string) (files : list uploaded_file) :
  extract_invoice_data text
  = (json_dumps (error_payload "API key not configured"), [ConfigError]) /\
  data (process_invoices files) = [] /\
  processed_files (process_invoices files) = 0%nat /\
  Forall (fun ev => is_remote_call ev = false)
         (trace (process_invoices files)).
Proof.
  split; [apply extract_refused|].
  destruct (process_invoices_data files) as [-> ->].
  assert (E : omap record_of files = []).
  { induction files as [|file rest IH]; [reflexivity|]. simpl.
    now rewrite record_of_unconfigured. }
  rewrite E. repeat split.
  unfold process_invoices, tell. simpl. rewrite Forall_app. split.
  - apply process_from_unconfigured_trace. constructor.
  - repeat constructor.
Qed.

End Unconfigured.

Lemma unconfigured_client_refuses_every_call_witness :
  let files := [Demo.invoice1; Demo.invoice2; Demo.invoice3] in
  @extract_invoice_data Demo.unconfigured "Invoice 42, total 50 EUR"
  = (@json_dumps Demo.unconfigured
       (error_payload "API key not configured"), [ConfigError]) /\
  data (@process_invoices Demo.unconfigured files) = [] /\
  processed_files (@process_invoices Demo.unconfigured files) = 0%nat /\
  Forall (fun ev => is_remote_call ev = false)
         (trace (@process_invoices Demo.unconfigured files)).
Proof.
  apply (@unconfigured_client_refuses_every_call Demo.unconfigured).
  - reflexivity.
  - vm_compute. reflexivity.
Defined.

(** ** Further facts *)

(** An instance of C10: the vendor name passes through unchanged. *)
Lemma validate_frame_witness :
  let d : gmap string pyval :=
    {[ "vendor_name"%string := PStr "ACME";
       "total_amount"%string := PStr "100";
       "currency"%string := PStr "EUR" ]} in
  (validate_invoice_data d).1 !! "vendor_name"%string = Some (PStr "ACME").
Proof.
  intros d.
  rewrite (proj1 (validate_frame d) "vendor_name"%string);
    [reflexivity | compute_done | discriminate].
Defined.

(** X1.  A warning is logged exactly when some amount is not coercible:
    the comparisons of the status chain never raise. *)
Theorem validation_warns_iff_not_coercible (d : gmap string pyval) :
  (validate_invoice_data d).2 = [] <-> coercible d = true.
Proof.
  destruct (coercible d) eqn:Hc.
  - destruct (validate_coercible d Hc) as (d1 & s & _ & _ & ->). now split.
  - destruct (validate_not_coercible d Hc) as (e & d1 & _ & ->).
    split; discriminate.
Qed.

Section FailedCall.
Context {S : Services}.

(** X4.  A file whose call to the service fails contributes no row: the
    error payload that [extract_invoice_data] returns decodes to a dictionary
    with the ["error"] key, and the loop skips it. *)
Theorem failed_call_yields_no_row
    (file : uploaded_file) (text msg : string)
    (create : string -> ext (option string)) :
  client = Some create ->
  read_pdf file = Returned text ->
  create (prompt_head +:+ text +:+ prompt_tail) = Failed msg ->
  json_loads (json_dumps (error_payload ("API call failed: " +:+ msg)))
  = Returned (error_payload ("API call failed: " +:+ msg)) ->
  rows_of file = [].
Proof.
  intros Hclient Hread Hcall Hjson. unfold rows_of, record_of.
  rewrite Hread. unfold extract_invoice_data. rewrite Hclient, Hcall.
  simpl fst. rewrite Hjson. unfold error_payload.
  now rewrite lookup_singleton_eq.
Qed.

End FailedCall.

Lemma failed_call_yields_no_row_witness :
  @rows_of Demo.configured Demo.invoice2 = [].
Proof.
  apply (@failed_call_yields_no_row Demo.configured Demo.invoice2
           (content Demo.invoice2 +:+ String "010"%char "")
           "service unavailable" Demo.echo);
    vm_compute; reflexivity.
Defined.

Lemma paid_only_when_both_falsy_witness :
  let d : gmap string pyval :=
    {[ "total_amount"%string := PStr "0.00";
       "amount_due"%string := PInt 0 ]} in
  let out := (validate_invoice_data d).1 in
  truthy (dict_get out "amount_due") = false /\
  truthy (dict_get out "total_amount") = false.
Proof.
  apply (paid_only_when_both_falsy
           {[ "total_amount"%string := PStr "0.00";
              "amount_due"%string := PInt 0 ]}); vm_compute; reflexivity.
Defined.

(** ** More on the status written *)

Lemma loop_ok_dict_get (d d1 : gmap string pyval) (k : string) :
  for_each amounts coerce_amount d = (Ok tt, d1) ->
  k ∈ amounts ->
  dict_get d1 k =
  if truthy (dict_get d k)
  then match py_float (dict_get d k) with
       | Ok f => PFloat f
       | Raise _ => dict_get d k
       end
  else dict_get d k.
Proof.
  intros H Hk. pose proof (loop_ok_lookup _ _ _ amounts_NoDup H k Hk) as L.
  destruct (truthy (dict_get d k)).
  - destruct L as (f & -> & Hl). unfold dict_get at 1. now rewrite Hl.
  - unfold dict_get. now rewrite L.
Qed.

Lemma zero_like_operand (d d1 : gmap string pyval) (k : string) (z : pyval) :
  for_each amounts coerce_amount d = (Ok tt, d1) ->
  k ∈ amounts ->
  zero_like (dict_get d k) = true ->
  py_or (dict_get d1 k) z = z.
Proof.
  intros H Hk Hz. rewrite (loop_ok_dict_get d d1 k H Hk).
  unfold zero_like in Hz. unfold py_or.
  destruct (truthy (dict_get d k)) eqn:Ht; cbn [negb orb] in Hz.
  - destruct (py_float (dict_get d k)) as [x|e]; [|discriminate].
    now destruct (truthy (PFloat x)).
  - now rewrite Ht.
Qed.

Lemma nonzero_operand (d d1 : gmap string pyval) (k : string) (z : pyval) x :
  for_each amounts coerce_amount d = (Ok tt, d1) ->
  k ∈ amounts ->
  nonzero_amount (dict_get d k) = true ->
  py_float (dict_get d k) = Ok x ->
  py_or (dict_get d1 k) z = PFloat x /\ py_eq_zero (PFloat x) = false.
Proof.
  intros H Hk Hnz Hx. rewrite (loop_ok_dict_get d d1 k H Hk).
  unfold nonzero_amount in Hnz. rewrite Hx in *.
  apply andb_true_iff in Hnz as [-> Ht]. unfold py_or. rewrite Ht.
  split; [reflexivity | now apply truthy_float_not_zero].
Qed.

(** X6.  An amount due that is zero in any form (missing, [None], [0],
    [0.0], the string ["0"], ...) next to a total that is a number other
    than zero is always labelled ["unpaid"], never ["paid"]. *)
Theorem zero_due_with_total_is_unpaid (d : gmap string pyval) :
  coercible d = true ->
  zero_like (dict_get d "amount_due") = true ->
  nonzero_amount (dict_get d "total_amount") = true ->
  (validate_invoice_data d).1 !! "payment_status"%string
  = Some (PStr "unpaid").
Proof.
  intros Hc Hdue Htot.
  destruct (validate_coercible d Hc) as (d1 & s & H1 & Hs & ->).
  simpl fst. rewrite lookup_insert_eq. do 2 f_equal.
  destruct (py_float (dict_get d "total_amount")) as [t|e] eqn:Ht.
  2:{ unfold nonzero_amount in Htot. rewrite Ht in Htot.
      now rewrite andb_false_r in Htot. }
  unfold derived_status in Hs.
  destruct (nonzero_operand d d1 "total_amount" (PInt 0) t H1
              ltac:(compute_done) Htot Ht) as [Et Ez].
  rewrite Et in Hs.
  rewrite (zero_like_operand d d1 "amount_due" (PFloat t) H1
             ltac:(compute_done) Hdue) in Hs.
  unfold status_label in Hs. rewrite Ez in Hs.
  unfold py_lt in Hs. simpl num_of in Hs. cbv beta iota in Hs.
  rewrite xcompare_refl_not_lt in Hs. now injection Hs.
Qed.

Lemma zero_due_with_total_is_unpaid_witness :
  (validate_invoice_data
     {[ "total_amount"%string := PStr "250.00";
        "amount_due"%string := PStr "0.00" ]}).1 !! "payment_status"%string
  = Some (PStr "unpaid").
Proof.
  apply (zero_due_with_total_is_unpaid
           {[ "total_amount"%string := PStr "250.00";
              "amount_due"%string := PStr "0.00" ]}); reflexivity.
Defined.

(** X7.  When the amount due and the total are both numbers other than
    zero, the status is ["partial"] if the amount due is below the total
    and ["unpaid"] otherwise: an amount due above the total is ["unpaid"],
    a negative one is ["partial"], and a NaN on either side is
    ["unpaid"]. *)
Theorem nonzero_due_status (d : gmap string pyval) (x y : spec_float) :
  coercible d = true ->
  nonzero_amount (dict_get d "amount_due") = true ->
  nonzero_amount (dict_get d "total_amount") = true ->
  py_float (dict_get d "amount_due") = Ok x ->
  py_float (dict_get d "total_amount") = Ok y ->
  (validate_invoice_data d).1 !! "payment_status"%string
  = Some (PStr (if xltb (xnum_of_float x) (xnum_of_float y)
                then "partial" else "unpaid")).
Proof.
  intros Hc Hdue Htot Hx Hy.
  destruct (validate_coercible d Hc) as (d1 & s & H1 & Hs & ->).
  simpl fst. rewrite lookup_insert_eq. do 2 f_equal.
  unfold derived_status in Hs.
  destruct (nonzero_operand d d1 "total_amount" (PInt 0) y H1
              ltac:(compute_done) Htot Hy) as [Et _].
  rewrite Et in Hs.
  destruct (nonzero_operand d d1 "amount_due" (PFloat y) x H1
              ltac:(compute_done) Hdue Hx) as [Ed Ez].
  rewrite Ed in Hs. unfold status_label in Hs. rewrite Ez in Hs.
  unfold py_lt in Hs. simpl num_of in Hs. cbv beta iota in Hs.
  now injection Hs.
Qed.

Lemma nonzero_due_status_witness :
  (validate_invoice_data
     {[ "total_amount"%string := PInt 100;
        "amount_due"%string := PStr "-5" ]}).1 !! "payment_status"%string
  = Some (PStr "partial").
Proof.
  apply (nonzero_due_status
           {[ "total_amount"%string := PInt 100;
              "amount_due"%string := PStr "-5" ]}
           (S754_finite true 5629499534213120 (-50))
           (S754_finite false 7036874417766400 (-46))); reflexivity.
Defined.

(** ** More on the boundary extraction *)

Lemma append_nil_r (s : string) : s +:+ "" = s.
Proof.
  induction s as [|a s IH]; [reflexivity|]. now rewrite append_cons, IH.
Qed.

Lemma json_boundary_braced (mid : string) :
  json_boundary (String "{"%char (mid +:+ String "}"%char ""))
  = String "{"%char (mid +:+ String "}"%char "").
Proof.
  exact (json_boundary_span "" mid "" eq_refl eq_refl).
Qed.

(** X8.  Extracting the boundary of an extracted text changes nothing: a
    response that already is one object, from its opening to its closing
    brace, passes through as it is. *)
Theorem json_boundary_idempotent (s : string) :
  json_boundary (json_boundary s) = json_boundary s.
Proof.
  destruct (occurs "{"%char s) eqn:Ho.
  - destruct (split_first _ _ Ho) as (pre & rest & -> & Hpre).
    destruct (occurs "}"%char rest) eqn:Hc.
    + destruct (split_last _ _ Hc) as (mid & post & -> & Hpost).
      rewrite json_boundary_span by assumption. apply json_boundary_braced.
    + now rewrite json_boundary_no_close_after.
  - rewrite (json_boundary_no_open s Ho). exact (json_boundary_no_open s Ho).
Qed.

(** X9.  The extracted text is a contiguous part of the response: nothing
    is inserted, reordered or rewritten. *)
Theorem json_boundary_is_part_of_response (s : string) :
  exists before after, s = before +:+ json_boundary s +:+ after.
Proof.
  destruct (occurs "{"%char s) eqn:Ho.
  - destruct (split_first _ _ Ho) as (pre & rest & -> & Hpre).
    destruct (occurs "}"%char rest) eqn:Hc.
    + destruct (split_last _ _ Hc) as (mid & post & -> & Hpost).
      exists pre, post. rewrite json_boundary_span by assumption.
      now rewrite !append_cons, append_assoc, append_cons, append_nil.
    + exists (pre +:+ String "{"%char rest), EmptyString.
      rewrite json_boundary_no_close_after by assumption.
      now rewrite append_nil, append_nil_r.
  - exists EmptyString, EmptyString.
    now rewrite (json_boundary_no_open s Ho), append_nil, append_nil_r.
Qed.

(** ** Reading a document *)

Section ReadPdf.
Context {S : Services}.

Lemma page_texts_all (texts : list string) : forall acc,
  page_texts (map Returned texts) acc = Returned (acc +:+ join_pages texts).
Proof.
  induction texts as [|t rest IH]; intros acc; simpl.
  - now rewrite append_nil_r.
  - rewrite IH. now rewrite !append_assoc.
Qed.

Lemma page_texts_bad_page (texts : list string) msg rest : forall acc,
  page_texts (map Returned texts ++ Failed msg :: rest) acc = Failed msg.
Proof.
  induction texts as [|t texts IH]; intros acc; simpl; [reflexivity|].
  apply IH.
Qed.

(** X10.  The text of a document is the text of its pages in order, each
    followed by one newline; a document without pages gives the empty
    text. *)
Theorem read_pdf_joins_pages (file : uploaded_file) (texts : list string) :
  PdfReader file = Returned (map Returned texts) ->
  read_pdf file = Returned (join_pages texts).
Proof.
  intros H. unfold read_pdf. rewrite H.
  now rewrite page_texts_all, append_nil.
Qed.

(** X11.  One page whose text extraction raises loses the whole document:
    [read_pdf] fails with that page's error, the text of the pages before
    it is dropped, and the file gives no row. *)
Theorem read_pdf_fails_on_bad_page
    (file : uploaded_file) (texts : list string) (msg : string)
    (rest : list (ext string)) :
  PdfReader file = Returned (map Returned texts ++ Failed msg :: rest) ->
  read_pdf file = Failed msg /\ rows_of file = [].
Proof.
  intros H.
  assert (E : read_pdf file = Failed msg).
  { unfold read_pdf. rewrite H. apply page_texts_bad_page. }
  split; [assumption|]. unfold rows_of, record_of. now rewrite E.
Qed.

End ReadPdf.

Lemma read_pdf_joins_pages_witness :
  let S := {| PdfReader := fun _ => Returned [Returned "Invoice 7";
                                              Returned "Total 50"];
              client := None;
              json_dumps := JsonLite.dumps;
              json_loads := JsonLite.loads |}%string in
  @read_pdf S Demo.invoice1
  = Returned (join_pages ["Invoice 7"; "Total 50"]%string).
Proof.
  intros S.
  apply (@read_pdf_joins_pages S Demo.invoice1
           ["Invoice 7"; "Total 50"]%string).
  reflexivity.
Defined.

Lemma read_pdf_fails_on_bad_page_witness :
  let S := {| PdfReader := fun _ => Returned [Returned "Invoice 7";
                                              Failed "bad font table";
                                              Returned "Total 50"];
              client := None;
              json_dumps := JsonLite.dumps;
              json_loads := JsonLite.loads |}%string in
  @read_pdf S Demo.invoice1 = Failed "bad font table" /\
  @rows_of S Demo.invoice1 = [].
Proof.
  intros S.
  apply (@read_pdf_fails_on_bad_page S Demo.invoice1
           ["Invoice 7"%string] "bad font table" [Returned "Total 50"%string]).
  reflexivity.
Defined.

(** ** What the batch loop tells *)

Lemma count_app {A} (p : A -> bool) (l1 l2 : list A) :
  count p (l1 ++ l2) = (count p l1 + count p l2)%nat.
Proof.
  induction l1 as [|x l1 IH]; simpl; [reflexivity|]. rewrite IH. lia.
Qed.

Lemma count_warned (p : event -> bool) (w : list log_entry) :
  (forall e, p (Warned e) = false) -> count p (map Warned w) = 0%nat.
Proof.
  intros H. induction w as [|e w IH]; simpl; [reflexivity|].
  now rewrite H, IH.
Qed.

Lemma length_omap_count {A B} (f : A -> option B) (l : list A) :
  length (omap f l)
  = count (fun x => match f x with Some _ => true | None => false end) l.
Proof.
  induction l as [|x l IH]; [reflexivity|].
  change (omap f (x :: l))
    with (match f x with Some y => y :: omap f l | None => omap f l end).
  cbn [count]. destruct (f x); cbn [length]; rewrite IH; reflexivity.
Qed.

Section BatchTrace.
Context {S : Services}.

Lemma extract_events (text : string) :
  (extract_invoice_data text).2 =
  match client with
  | None => [ConfigError]
  | Some _ => [RemoteCall (prompt_head +:+ text +:+ prompt_tail)]
  end.
Proof.
  unfold extract_invoice_data. destruct client as [create|]; [|reflexivity].
  now destruct (create _) as [[?|]|?].
Qed.

Lemma count_extract_events (p : event -> bool) (bC bR : bool) text :
  p ConfigError = bC -> (forall x, p (RemoteCall x) = bR) ->
  count p (extract_invoice_data text).2
  = match client with None => Nat.b2n bC | Some _ => Nat.b2n bR end.
Proof.
  intros HC HR. rewrite extract_events.
  destruct client; simpl; rewrite ?HC, ?HR; unfold Nat.b2n; lia.
Qed.

(** What one iteration adds to the trace, counted by kind of event. *)
Lemma process_file_count (p : event -> bool)
    (bP bC bR bA bD bF bG : bool) n st i file :
  (forall a b c, p (Processing a b c) = bP) ->
  p ConfigError = bC ->
  (forall x, p (RemoteCall x) = bR) ->
  (forall x, p (ApiError x) = bA) ->
  (forall x, p (Warned x) = false) ->
  (forall x, p (Processed x) = bD) ->
  (forall x y, p (FailedToProcess x y) = bF) ->
  (forall a b, p (Progress a b) = bG) ->
  count p (trace (process_file n st i file))
  = (count p (trace st) + Nat.b2n bP
     + (if readable file
        then match client with None => Nat.b2n bC | Some _ => Nat.b2n bR end
        else 0)
     + (if succeeds file then Nat.b2n bD + Nat.b2n bG
        else if answers_with_error file then Nat.b2n bA
             else Nat.b2n bF + Nat.b2n bG))%nat.
Proof.
  intros HP HC HR HA HW HD HF HG.
  unfold process_file, handler, tell, readable, succeeds,
    answers_with_error, record_of.
  destruct (read_pdf file) as [text|msg]; cbn [trace data processed_files].
  2:{ rewrite !count_app. cbn [count]. rewrite HP, HF, HG. unfold Nat.b2n. lia. }
  pose proof (count_extract_events p bC bR text HC HR) as Hev.
  destruct (extract_invoice_data text) as [js evs].
  cbn [fst snd trace data processed_files] in *.
  assert (Hgive_up : forall why w,
            count p ((((trace st ++ [Processing (i + 1) n (name file)])
                       ++ evs) ++ map Warned w)
                     ++ [FailedToProcess (name file) why; Progress (i + 1) n])
            = (count p (trace st) + Nat.b2n bP
               + match client with
                 | None => Nat.b2n bC
                 | Some _ => Nat.b2n bR
                 end
               + (Nat.b2n bF + Nat.b2n bG))%nat).
  { intros why w. rewrite !count_app, (count_warned p w HW), Hev.
    cbn [count]. rewrite HP, HF, HG. unfold Nat.b2n. lia. }
  assert (Hgive_up0 : forall why,
            count p (((trace st ++ [Processing (i + 1) n (name file)])
                      ++ evs)
                     ++ [FailedToProcess (name file) why; Progress (i + 1) n])
            = (count p (trace st) + Nat.b2n bP
               + match client with
                 | None => Nat.b2n bC
                 | Some _ => Nat.b2n bR
                 end
               + (Nat.b2n bF + Nat.b2n bG))%nat).
  { intros why. rewrite !count_app, Hev.
    cbn [count]. rewrite HP, HF, HG. unfold Nat.b2n. lia. }
  destruct (json_loads js) as [obj|msg]; cbn [trace data processed_files].
  2:{ apply Hgive_up0. }
  destruct obj as [|b|z|f|str|l|d]; cbn [contains_error validate_object];
    try apply Hgive_up0.
  - destruct (index 0 "error" str); cbn [trace data processed_files].
    + apply Hgive_up0.
    + apply (Hgive_up _ [LogWarning AttributeError]).
  - destruct (existsb _ l); cbn [trace data processed_files].
    + apply Hgive_up0.
    + apply (Hgive_up _ [LogWarning AttributeError]).
  - destruct (d !! "error"%string) as [err|] eqn:E.
    + rewrite !bool_decide_eq_true_2 by eauto.
      cbn [trace data processed_files].
      rewrite !count_app, Hev. cbn [count]. rewrite HP, HA. unfold Nat.b2n. lia.
    + rewrite !bool_decide_eq_false_2 by (intros [? ?]; congruence).
      destruct (validate_invoice_data d) as [d' w].
      cbn [trace data processed_files fst].
      rewrite !count_app, (count_warned p w HW), Hev.
      cbn [count]. rewrite HP, HD, HG. unfold Nat.b2n. lia.
Qed.

End BatchTrace.

Section BatchCounts.
Context {S : Services}.

(** A file succeeds, is answered with an error, or is given up: exactly
    one of the three. *)
Lemma file_verdicts (files : list uploaded_file) :
  (count succeeds files + count answers_with_error files
   + count gives_up files)%nat = length files.
Proof.
  induction files as [|file rest IH]; [reflexivity|].
  cbn [count length]. rewrite <- IH.
  assert (E : ((if succeeds file then 1 else 0)
               + (if answers_with_error file then 1 else 0)
               + (if gives_up file then 1 else 0))%nat = 1%nat).
  { unfold gives_up, succeeds, answers_with_error, record_of.
    destruct (read_pdf file) as [text|]; [|reflexivity].
    destruct (json_loads _) as [[| | | | | |d]|]; try reflexivity.
    destruct (d !! "error"%string) eqn:E.
    - now rewrite bool_decide_eq_true_2 by eauto.
    - now rewrite bool_decide_eq_false_2 by (intros [? ?]; congruence). }
  lia.
Qed.

Lemma process_from_count (p : event -> bool)
    (bP bC bR bA bD bF bG : bool) n files :
  (forall a b c, p (Processing a b c) = bP) ->
  p ConfigError = bC ->
  (forall x, p (RemoteCall x) = bR) ->
  (forall x, p (ApiError x) = bA) ->
  (forall x, p (Warned x) = false) ->
  (forall x, p (Processed x) = bD) ->
  (forall x y, p (FailedToProcess x y) = bF) ->
  (forall a b, p (Progress a b) = bG) ->
  forall st i,
  count p (trace (process_from n st i files))
  = (count p (trace st) + length files * Nat.b2n bP
     + count readable files
       * match client with None => Nat.b2n bC | Some _ => Nat.b2n bR end
     + count succeeds files * (Nat.b2n bD + Nat.b2n bG)
     + count answers_with_error files * Nat.b2n bA
     + count gives_up files * (Nat.b2n bF + Nat.b2n bG))%nat.
Proof.
  intros HP HC HR HA HW HD HF HG.
  induction files as [|file rest IH]; intros st i.
  - cbn [process_from count length]. lia.
  - cbn [process_from]. rewrite IH.
    rewrite (process_file_count p bP bC bR bA bD bF bG n st i file
               HP HC HR HA HW HD HF HG).
    cbn [count length]. unfold gives_up.
    assert (Hex : succeeds file = true -> answers_with_error file = false).
    { unfold succeeds, answers_with_error, record_of.
      destruct (read_pdf file) as [text|]; [|reflexivity].
      destruct (json_loads _) as [[| | | | | |d]|]; try reflexivity.
      destruct (d !! "error"%string) eqn:E; [discriminate|].
      now rewrite bool_decide_eq_false_2 by (intros [? ?]; congruence). }
    destruct (succeeds file); [rewrite Hex by reflexivity|];
      destruct (readable file); try destruct (answers_with_error file);
      cbn [negb andb]; nia.
Qed.

Lemma process_invoices_count (p : event -> bool)
    (bP bC bR bA bD bF bG : bool) files :
  (forall a b c, p (Processing a b c) = bP) ->
  p ConfigError = bC ->
  (forall x, p (RemoteCall x) = bR) ->
  (forall x, p (ApiError x) = bA) ->
  (forall x, p (Warned x) = false) ->
  (forall x, p (Processed x) = bD) ->
  (forall x y, p (FailedToProcess x y) = bF) ->
  (forall a b, p (Progress a b) = bG) ->
  (forall a b, p (Summary a b) = false) ->
  count p (trace (process_invoices files))
  = (length files * Nat.b2n bP
     + count readable files
       * match client with None => Nat.b2n bC | Some _ => Nat.b2n bR end
     + count succeeds files * (Nat.b2n bD + Nat.b2n bG)
     + count answers_with_error files * Nat.b2n bA
     + count gives_up files * (Nat.b2n bF + Nat.b2n bG))%nat.
Proof.
  intros HP HC HR HA HW HD HF HG HS.
  unfold process_invoices, tell. cbn [trace]. rewrite count_app.
  rewrite (process_from_count p bP bC bR bA bD bF bG _ files
             HP HC HR HA HW HD HF HG).
  cbn [count trace]. rewrite HS. lia.
Qed.

(** X12.  Every file is accounted for: each file is announced once, and
    the number of files is the number of rows plus the number of failure
    reports (a file given up, or answered with an error); the counter of
    processed files is the number of files logged as processed. *)
Theorem every_file_is_accounted_for (files : list uploaded_file) :
  let run := process_invoices files in
  count is_processing (trace run) = length files /\
  count is_processed (trace run) = processed_files run /\
  length (data run) = processed_files run /\
  (processed_files run + count is_failure_report (trace run))%nat
  = length files.
Proof.
  intros run. subst run.
  destruct (process_invoices_data files) as [Hd Hn].
  rewrite Hd, Hn, length_omap_count.
  change (count (fun x => match record_of x with
                          | Some _ => true
                          | None => false
                          end) files) with (count succeeds files).
  rewrite (process_invoices_count is_processing
             true false false false false false false); try reflexivity.
  rewrite (process_invoices_count is_processed
             false false false false true false false); try reflexivity.
  rewrite (process_invoices_count is_failure_report
             false false false true false true false); try reflexivity.
  pose proof (file_verdicts files). destruct client; cbn [Nat.b2n]; lia.
Qed.

(** X13.  The progress bar is moved once for every file that gives a row
    or is given up, and not at all for a file answered with an error
    payload, where the loop continues before the update: the progress
    updates and the error answers together number the files. *)
Theorem progress_skips_error_answers (files : list uploaded_file) :
  let run := process_invoices files in
  (count is_progress (trace run) + count is_api_error (trace run))%nat
  = length files /\
  count is_api_error (trace run) = count answers_with_error files.
Proof.
  intros run. subst run.
  rewrite (process_invoices_count is_progress
             false false false false false false true); try reflexivity.
  rewrite (process_invoices_count is_api_error
             false false false true false false false); try reflexivity.
  pose proof (file_verdicts files). destruct client; cbn [Nat.b2n]; lia.
Qed.

(** X14.  The service is called once for each file whose text was read,
    and never for a file whose text extraction failed; without a client
    it is not called at all.  Nothing is retried. *)
Theorem one_remote_call_per_readable_file (files : list uploaded_file) :
  count is_remote_call (trace (process_invoices files))
  = match client with
    | Some _ => count readable files
    | None => 0%nat
    end.
Proof.
  rewrite (process_invoices_count is_remote_call
             false false true false false false false); try reflexivity.
  destruct client; cbn [Nat.b2n]; lia.
Qed.

End BatchCounts.

(** ** The rows of the result *)

Lemma validate_lookup_other (d : gmap string pyval) (k : string) :
  k ∉ amounts -> k ≠ "payment_status"%string ->
  (validate_invoice_data d).1 !! k = d !! k.
Proof.
  intros Hk Hps. destruct (coercible d) eqn:Hc.
  - destruct (validate_coercible d Hc) as (d1 & s & H1 & _ & ->).
    simpl fst. rewrite lookup_insert_ne by congruence.
    exact (loop_frame _ _ _ _ H1 k Hk).
  - destruct (validate_not_coercible d Hc) as (e & d1 & H1 & ->).
    simpl fst. exact (loop_frame _ _ _ _ H1 k Hk).
Qed.

Section Rows.
Context {S : Services}.

Lemma record_of_fields (file : uploaded_file) (r : gmap string pyval) :
  record_of file = Some r ->
  r !! "source_file"%string = Some (PStr (name file)) /\
  r !! "error"%string = None.
Proof.
  unfold record_of. destruct (read_pdf file) as [text|]; [|discriminate].
  destruct (json_loads _) as [[| | | | | |d]|]; try discriminate.
  destruct (d !! "error"%string) eqn:E; [discriminate|].
  intros [= <-]. split; [apply lookup_insert_eq|].
  rewrite lookup_insert_ne by discriminate.
  rewrite validate_lookup_other; [assumption | compute_done | discriminate].
Qed.

(** X15.  Every row of the result is tagged with the name of the file it
    came from, in the order of the files that succeed, and no row has an
    ["error"] key. *)
Theorem rows_are_tagged_with_their_file (files : list uploaded_file) :
  map (fun row : gmap string pyval => row !! "source_file"%string)
      (data (process_invoices files))
  = map (fun file => Some (PStr (name file))) (List.filter succeeds files) /\
  Forall (fun row : gmap string pyval => row !! "error"%string = None)
         (data (process_invoices files)).
Proof.
  rewrite (proj1 (process_invoices_data files)).
  induction files as [|file rest [IH1 IH2]]; [split; constructor|].
  change (omap record_of (file :: rest))
    with (match record_of file with
          | Some r => r :: omap record_of rest
          | None => omap record_of rest
          end).
  cbn [List.filter]. unfold succeeds at 1.
  destruct (record_of file) as [r|] eqn:E; [|now split].
  destruct (record_of_fields file r E) as [Hs He].
  cbn [map]. rewrite Hs, IH1. split; [reflexivity | now constructor].
Qed.

(** X16.  A row keeps every field of the decoded payload other than the
    five amounts and the status as it was decoded, and its [source_file]
    is the file name, whatever the payload said under that key. *)
Theorem row_keeps_payload_fields
    (file : uploaded_file) (text : string) (d : gmap string pyval) :
  read_pdf file = Returned text ->
  json_loads (extract_invoice_data text).1 = Returned (PDict d) ->
  d !! "error"%string = None ->
  exists row,
    rows_of file = [row] /\
    row !! "source_file"%string = Some (PStr (name file)) /\
    forall k, k ∉ amounts -> k ≠ "payment_status"%string ->
              k ≠ "source_file"%string -> row !! k = d !! k.
Proof.
  intros Hread Hjson Herr. unfold rows_of, record_of.
  rewrite Hread, Hjson, Herr. eexists. split; [reflexivity|].
  split; [apply lookup_insert_eq|]. intros k Hk Hps Hsf.
  rewrite lookup_insert_ne by congruence.
  now apply validate_lookup_other.
Qed.

(** X17.  Prose around the object is tolerated end to end: when the
    service answers with one object between text that has no opening brace
    before it and no closing brace after it, and that object decodes to a
    dictionary without an ["error"] key, the file gives exactly one row,
    the validated dictionary tagged with the file name. *)
Theorem chatty_answer_gives_the_row
    (file : uploaded_file) (text pre mid post : string)
    (create : string -> ext (option string)) (d : gmap string pyval) :
  client = Some create ->
  read_pdf file = Returned text ->
  create (prompt_head +:+ text +:+ prompt_tail)
  = Returned (Some (pre +:+ String "{"%char (mid +:+ String "}"%char post))) ->
  occurs "{"%char pre = false ->
  occurs "}"%char post = false ->
  json_loads (String "{"%char (mid +:+ String "}"%char ""))
  = Returned (PDict d) ->
  d !! "error"%string = None ->
  rows_of file
  = [<["source_file"%string := PStr (name file)]>
       (validate_invoice_data d).1].
Proof.
  intros Hclient Hread Hcall Hpre Hpost Hjson Herr.
  unfold rows_of, record_of. rewrite Hread.
  unfold extract_invoice_data. rewrite Hclient, Hcall. simpl fst.
  rewrite json_boundary_span by assumption. now rewrite Hjson, Herr.
Qed.

End Rows.

Lemma row_keeps_payload_fields_witness :
  exists row,
    @rows_of Demo.configured Demo.invoice1 = [row] /\
    row !! "source_file"%string = Some (PStr (name Demo.invoice1)) /\
    forall k, k ∉ amounts -> k ≠ "payment_status"%string ->
              k ≠ "source_file"%string ->
              row !! k
              = ({[ "vendor_name"%string := PStr "ACME";
                    "total_amount"%string := PInt 50 ]}
                   : gmap string pyval) !! k.
Proof.
  apply (@row_keeps_payload_fields Demo.configured Demo.invoice1
           (content Demo.invoice1 +:+ String "010"%char ""));
    vm_compute; exact eq_refl.
Defined.

Lemma chatty_answer_gives_the_row_witness :
  @rows_of Demo.configured Demo.invoice1
  = [<["source_file"%string := PStr (name Demo.invoice1)]>
       (validate_invoice_data
          {[ "vendor_name"%string := PStr "ACME";
             "total_amount"%string := PInt 50 ]}).1].
Proof.
  apply (@chatty_answer_gives_the_row Demo.configured Demo.invoice1
           (content Demo.invoice1 +:+ String "010"%char "")
           "Here you go: "
           (Demo.q +:+ "vendor_name" +:+ Demo.q +:+ ": " +:+ Demo.q
            +:+ "ACME" +:+ Demo.q +:+ ", " +:+ Demo.q +:+ "total_amount"
            +:+ Demo.q +:+ ": 50")
           (" Anything else?" +:+ String "010"%char "")
           Demo.echo);
    vm_compute; exact eq_refl.
Defined.

(** ** Start-up *)

Section Startup.
Context {C : Type}.
Variable Groq : string -> ext C.

Lemma resolve_api_key_cases (secret : ext string) (env : option string) :
  (exists k, (secret = Returned k \/
              ((exists m, secret = Failed m) /\ env = Some k /\
               k ≠ EmptyString)) /\
             resolve_api_key secret env = (k, [])) \/
  ((exists m, secret = Failed m) /\
   (env = None \/ env = Some EmptyString) /\
   resolve_api_key secret env = (placeholder, [DemoModeWarning; ApiKeyInfo])).
Proof.
  unfold resolve_api_key. destruct secret as [k|m]; [left; eauto|].
  destruct env as [k|]; [|right; eauto].
  destruct (String.eqb k "") eqn:E.
  - apply String.eqb_eq in E as ->. right; eauto.
  - apply String.eqb_neq in E. left. exists k. split; [right|]; eauto.
Qed.

(** X18.  A client exists exactly when a key was found, that key is not
    the placeholder text, and the constructor accepted it.  The key is the
    secret whenever the secret lookup succeeds, even an empty one; the
    environment variable is used only when the lookup fails, and only if
    it is not empty. *)
Theorem client_exists_iff
    (secret : ext string) (env : option string) (c : C) :
  (startup Groq secret env).1 = Some c <->
  exists k,
    (secret = Returned k \/
     ((exists m, secret = Failed m) /\ env = Some k /\ k ≠ EmptyString)) /\
    k ≠ placeholder /\ Groq k = Returned c.
Proof.
  unfold startup, init_client.
  destruct (resolve_api_key_cases secret env)
    as [(k & Hk & ->)|(Hs & He & ->)].
  - destruct (String.eqb k placeholder) eqn:E.
    + apply String.eqb_eq in E. simpl. split; [discriminate|].
      intros (k' & Hk' & Hne & _). exfalso. apply Hne.
      destruct Hk as [->|((m & ->) & -> & _)];
        destruct Hk' as [[= <-]|((m' & Hm') & He' & _)]; congruence.
    + apply String.eqb_neq in E.
      destruct (Groq k) as [c'|m] eqn:G; simpl; split.
      * intros [= <-]. eauto.
      * intros (k' & Hk' & _ & G').
        assert (k' = k) as ->.
        { destruct Hk as [->|((m & ->) & -> & _)];
            destruct Hk' as [[= <-]|((m' & Hm') & He' & _)]; congruence. }
        congruence.
      * discriminate.
      * intros (k' & Hk' & _ & G').
        assert (k' = k) as ->.
        { destruct Hk as [->|((m0 & ->) & -> & _)];
            destruct Hk' as [[= <-]|((m' & Hm') & He' & _)]; congruence. }
        congruence.
  - simpl. split; [discriminate|].
    intros (k' & Hk' & _ & _). destruct Hs as [m ->].
    destruct Hk' as [|(_ & He' & Hne)]; [discriminate|].
    destruct He as [->| ->]; congruence.
Qed.

Ltac mem_false H :=
  repeat (apply elem_of_cons in H as [H|H]; [try discriminate H|]);
  try (apply elem_of_nil in H; destruct H).

(** X19.  The placeholder text is never passed to the constructor, and the
    constructor is called at most once.  In demo mode, that is when the
    warning is shown, there is no client and the constructor is not called
    at all; when the constructor raises there is no client and the error
    is shown. *)
Theorem startup_never_uses_placeholder
    (secret : ext string) (env : option string) :
  let '(c, shown) := startup Groq secret env in
  Forall (fun ev => ev ≠ GroqCalled placeholder) shown /\
  (count (fun ev => match ev with GroqCalled _ => true | _ => false end)
         shown <= 1)%nat /\
  (DemoModeWarning ∈ shown ->
   c = None /\ forall k, GroqCalled k ∉ shown) /\
  (NotConfiguredProperly ∈ shown -> c = None).
Proof.
  unfold startup, init_client.
  destruct (resolve_api_key_cases secret env)
    as [(k & Hk & ->)|(Hs & He & ->)].
  - destruct (String.eqb k placeholder) eqn:E.
    + cbn [app count]. split; [constructor|]. split; [lia|].
      split; intros H; mem_false H.
    + apply String.eqb_neq in E.
      assert (Hne : GroqCalled k ≠ GroqCalled placeholder) by congruence.
      destruct (Groq k) as [c'|m]; cbn [app count].
      * split; [repeat constructor; assumption|]. split; [lia|].
        split; intros H; mem_false H.
      * split; [repeat constructor; (assumption || discriminate)|].
        split; [lia|]. split; [intros H; mem_false H | reflexivity].
  - change (String.eqb placeholder placeholder) with true.
    cbn [app count]. split; [repeat constructor; discriminate|].
    split; [lia|]. split; [|reflexivity].
    intros _. split; [reflexivity|]. intros k H. mem_false H.
Qed.

End Startup.

(** ** Payloads that are not objects *)

Section NotAnObject.
Context {S : Services}.

(** X20.  A payload that decodes to anything but an object (an array of
    invoices, a string, a number, [null]) never gives a row: the file is
    given up with a [TypeError], whatever the payload holds, and the loop
    goes on. *)
Theorem non_object_payload_is_given_up
    (n : nat) (st : batch) (i : nat) (file : uploaded_file)
    (text : string) (obj : pyval) :
  read_pdf file = Returned text ->
  json_loads (extract_invoice_data text).1 = Returned obj ->
  is_dict obj = false ->
  rows_of file = [] /\
  data (process_file n st i file) = data st /\
  FailedToProcess (name file) (Uncaught TypeError)
    ∈ trace (process_file n st i file).
Proof.
  intros Hread Hjson Hobj.
  assert (Hrows : rows_of file = []).
  { unfold rows_of, record_of. rewrite Hread, Hjson.
    now destruct obj. }
  split; [assumption|]. split.
  { rewrite (proj1 (process_file_data n st i file)), Hrows.
    apply app_nil_r. }
  unfold process_file, handler, tell. rewrite Hread.
  destruct (extract_invoice_data text) as [js evs]. simpl fst in Hjson.
  rewrite Hjson.
  destruct obj as [|b|z|f|str|l|d]; try discriminate;
    cbn [contains_error validate_object trace];
    try (apply elem_of_app; right; constructor).
  - destruct (index 0 "error" str); cbn [trace];
      apply elem_of_app; right; constructor.
  - destruct (existsb _ l); cbn [trace];
      apply elem_of_app; right; constructor.
Qed.

End NotAnObject.

Lemma non_object_payload_is_given_up_witness :
  let file := {| name := "many.pdf"; content := "[1, 2]" |}%string in
  let st := {| data := []; processed_files := 0; trace := [] |} in
  @rows_of Demo.configured file = [] /\
  data (@process_file Demo.configured 1 st 0 file) = data st /\
  FailedToProcess (name file) (Uncaught TypeError)
    ∈ trace (@process_file Demo.configured 1 st 0 file).
Proof.
  intros file st.
  apply (@non_object_payload_is_given_up Demo.configured 1 st 0 file
           (content file +:+ String "010"%char "")
           (PList [PInt 1; PInt 2]));
    vm_compute; exact eq_refl.
Defined.
